(** * The Nacos registry adapter of kratos (contrib/registry/nacos/registry.go)

    A shallow embedding of [Register], [Deregister] and [GetService] and the
    properties the specification states about them.

    - Go strings are byte sequences: [string].
    - [map[string]string] is [gmap string string]; a nil map reads like the
      empty one.
    - [uint64] and [int] (64 bits) are [Z] with the wrap-around written out.
    - [float64] is Rocq's primitive binary64 float.
    - The naming client is an interface the adapter only calls.  What it
      answers may depend on everything it was asked before, so a client is a
      function of the history of calls, and the state threaded through the
      adapter is that history: every call the adapter issues is appended. *)

From Stdlib Require Import ZArith Ascii String List Lia PrimFloat.
From stdpp Require Import gmap strings list fin_maps.
Import ListNotations.

Local Open Scope string_scope.
Local Open Scope list_scope.
Local Open Scope Z_scope.

(** ** Errors *)

(** The underlying errors of [*url.Error], as net/url produces them. *)
Inductive url_err : Type :=
| InvalidControlCharacter          (* "net/url: invalid control character in URL" *)
| MissingProtocolScheme            (* "missing protocol scheme" *)
| FirstPathSegmentColon            (* "first path segment in URL cannot contain colon" *)
| MissingBracketInHost             (* "missing ']' in host" *)
| InvalidPortAfterHost (colonPort : string)  (* "invalid port %q after host" *)
| InvalidUserinfo                  (* "net/url: invalid userinfo" *)
| EscapeError (s : string)         (* url.EscapeError *)
| InvalidHostError (s : string).   (* url.InvalidHostError *)

(** [strconv.ErrSyntax] and [strconv.ErrRange]. *)
Inductive num_err : Type := ErrSyntax | ErrRange.

(** Go's [error] values that can flow through the adapter.  An error of the
    SDK is opaque to the adapter, which only ever formats it with [%v]: it is
    modelled by its message. *)
Inductive error : Type :=
| ErrServiceInstanceNameEmpty  (* "kratos/nacos: ServiceInstance.Name can not be empty" *)
| UrlError (Op URL : string) (Err : url_err)          (* *url.Error *)
| AddrError (Err Addr : string)                       (* *net.AddrError *)
| NumError (Func Num : string) (Err : num_err)        (* *strconv.NumError *)
| SdkError (msg : string)                             (* returned by the client *)
| errorString (s : string).                           (* built by fmt.Errorf *)

(** ** Data *)

(** [registry.ServiceInstance] of the framework. *)
Record ServiceInstance : Type := {
  ID : string;
  Name : string;
  Version : string;
  Metadata : gmap string string;
  Endpoints : list string
}.

(** [options] (registry.go, lines 24-30). *)
Record options : Type := {
  prefix : string;
  weight : float;
  cluster : string;
  group : string;
  kind : string
}.

Definition Option := options -> options.

Definition WithPrefix (p : string) : Option :=
  fun o => {| prefix := p; weight := weight o; cluster := cluster o;
              group := group o; kind := kind o |}.
Definition WithWeight (w : float) : Option :=
  fun o => {| prefix := prefix o; weight := w; cluster := cluster o;
              group := group o; kind := kind o |}.
Definition WithCluster (c : string) : Option :=
  fun o => {| prefix := prefix o; weight := weight o; cluster := c;
              group := group o; kind := kind o |}.
Definition WithGroup (g : string) : Option :=
  fun o => {| prefix := prefix o; weight := weight o; cluster := cluster o;
              group := g; kind := kind o |}.
Definition WithDefaultKind (k : string) : Option :=
  fun o => {| prefix := prefix o; weight := weight o; cluster := cluster o;
              group := group o; kind := k |}.

(** [constant.DEFAULT_GROUP] of the SDK. *)
Definition DEFAULT_GROUP : string := "DEFAULT_GROUP".

(** The parameter structs of the SDK's package [vo]; only the fields the
    adapter sets, the others keep Go's zero value. *)
Record RegisterInstanceParam : Type := {
  reg_Ip : string;
  reg_Port : Z;
  reg_ServiceName : string;
  reg_Weight : float;
  reg_Enable : bool;
  reg_Healthy : bool;
  reg_Ephemeral : bool;
  reg_Metadata : gmap string string;
  reg_ClusterName : string;
  reg_GroupName : string
}.

Record DeregisterInstanceParam : Type := {
  dereg_Ip : string;
  dereg_Port : Z;
  dereg_ServiceName : string;
  dereg_GroupName : string;
  dereg_Cluster : string;
  dereg_Ephemeral : bool
}.

Record SelectInstancesParam : Type := {
  sel_ServiceName : string;
  sel_GroupName : string;
  sel_HealthyOnly : bool
}.

(** [model.Instance] of the SDK. *)
Record Instance : Type := {
  InstanceId : string;
  Ip : string;
  Port : Z;
  Weight : float;
  Healthy : bool;
  Enable : bool;
  Ephemeral : bool;
  ClusterName : string;
  ServiceName : string;
  inst_Metadata : gmap string string
}.

(** ** The naming client *)

Inductive Call : Type :=
| CallRegisterInstance (p : RegisterInstanceParam)
| CallDeregisterInstance (p : DeregisterInstanceParam)
| CallSelectInstances (p : SelectInstancesParam).

Definition history := list Call.

(** [naming_client.INamingClient], restricted to the three methods
    registry.go calls.  Each takes the calls issued so far. *)
Record INamingClient : Type := {
  RegisterInstance : history -> RegisterInstanceParam -> bool * option string;
  DeregisterInstance : history -> DeregisterInstanceParam -> bool * option string;
  SelectInstances : history -> SelectInstancesParam -> list Instance * option string
}.

(** ** The standard library functions the adapter calls *)

(** The two fields of [url.URL] the adapter reads. *)
Record URL : Type := { Scheme : string; Host : string }.

Definition result (A : Type) : Type := (A + error)%type.

Class GoLib : Type := {
  url_Parse : string -> result URL;
  net_SplitHostPort : string -> result (string * string);
  strconv_Atoi : string -> result Z
}.

(** Conversion [uint64(p)] of an [int]. *)
Definition uint64 (p : Z) : Z := p mod 2 ^ 64.

(** ** The adapter *)

Record Registry : Type := { opts : options; cli : INamingClient }.

(** registry.go, lines 59-74. *)
Definition New (c : INamingClient) (os : list Option) : Registry :=
  let op := {| prefix := "/microservices"; cluster := "DEFAULT";
               group := DEFAULT_GROUP; weight := 100%float; kind := "grpc" |} in
  {| opts := fold_left (fun o option => option o) os op; cli := c |}.

Section Adapter.
Context `{GoLib}.

(** Lines 81-92 and 118-129: what both loops do with an endpoint before they
    call the client. *)
Definition parse_endpoint (endpoint : string) : result (URL * string * Z) :=
  match url_Parse endpoint with
  | inr err => inr err
  | inl u =>
    match net_SplitHostPort (Host u) with
    | inr err => inr err
    | inl (host, port) =>
      match strconv_Atoi port with
      | inr err => inr err
      | inl p => inl (u, host, p)
      end
    end
  end.

(** Lines 93-96. Go ranges over [si.Metadata] in an unspecified order; the
    keys of a map are distinct, so every order gives the same map. *)
Definition build_meta (u : URL) (si : ServiceInstance) : gmap string string :=
  map_fold (fun k v meta => <[k:=v]> meta)
           (<["version":=Version si]> (<["kind":=Scheme u]> ∅))
           (Metadata si).

(** Lines 97-108. *)
Definition register_param (r : Registry) (si : ServiceInstance)
    (u : URL) (host : string) (p : Z) : RegisterInstanceParam :=
  {| reg_Ip := host;
     reg_Port := uint64 p;
     reg_ServiceName := Name si +:+ "." +:+ Scheme u;
     reg_Weight := weight (opts r);
     reg_Enable := true;
     reg_Healthy := true;
     reg_Ephemeral := true;
     reg_Metadata := build_meta u si;
     reg_ClusterName := cluster (opts r);
     reg_GroupName := group (opts r) |}.

(** The loop of lines 80-112, over the endpoints still to process. *)
Fixpoint Register_loop (r : Registry) (si : ServiceInstance)
    (endpoints : list string) (h : history) : option error * history :=
  match endpoints with
  | [] => (None, h)
  | endpoint :: rest =>
    match parse_endpoint endpoint with
    | inr err => (Some err, h)
    | inl (u, host, p) =>
      let param := register_param r si u host p in
      let '(_, err) := RegisterInstance (cli r) h param in
      let h' := h ++ [CallRegisterInstance param] in
      match err with
      | Some e =>
        (Some (errorString ("RegisterInstance err: " +:+ e +:+ ", " +:+ endpoint)), h')
      | None => Register_loop r si rest h'
      end
    end
  end.

(** registry.go, lines 76-114. [si] is a non-nil pointer. *)
Definition Register (r : Registry) (si : ServiceInstance) (h : history)
    : option error * history :=
  if String.eqb (Name si) "" then (Some ErrServiceInstanceNameEmpty, h)
  else Register_loop r si (Endpoints si) h.

(** The loop of lines 117-141. *)
Definition deregister_param (r : Registry) (service : ServiceInstance)
    (u : URL) (host : string) (p : Z) : DeregisterInstanceParam :=
  {| dereg_Ip := host;
     dereg_Port := uint64 p;
     dereg_ServiceName := Name service +:+ "." +:+ Scheme u;
     dereg_GroupName := group (opts r);
     dereg_Cluster := cluster (opts r);
     dereg_Ephemeral := true |}.

Fixpoint Deregister_loop (r : Registry) (service : ServiceInstance)
    (endpoints : list string) (h : history) : option error * history :=
  match endpoints with
  | [] => (None, h)
  | endpoint :: rest =>
    match parse_endpoint endpoint with
    | inr err => (Some err, h)
    | inl (u, host, p) =>
      let param := deregister_param r service u host p in
      let '(_, err) := DeregisterInstance (cli r) h param in
      let h' := h ++ [CallDeregisterInstance param] in
      match err with
      | Some e => (Some (SdkError e), h')
      | None => Deregister_loop r service rest h'
      end
    end
  end.

(** registry.go, lines 116-143. *)
Definition Deregister (r : Registry) (service : ServiceInstance) (h : history)
    : option error * history :=
  Deregister_loop r service (Endpoints service) h.

End Adapter.

(** ** Discovery *)

(** registry.go, lines 145-147: what [Watch] hands to [newWatcher] besides
    the context and the client: the service name, the configured group and
    default kind, and the configured cluster as a list of one. [newWatcher]
    and the watcher are in another file. *)
Definition Watch_arguments (r : Registry) (serviceName : string)
    : string * string * string * list string :=
  (serviceName, group (opts r), kind (opts r), [cluster (opts r)]).

(** [strconv]'s decimal formatting of a [uint64], least significant digit
    first into the buffer; a [uint64] has at most 20 digits. *)
Definition digit_byte (d : Z) : ascii := ascii_of_N (Z.to_N (48 + d)).

Fixpoint formatBits (fuel : nat) (u : Z) (buf : string) : string :=
  match fuel with
  | O => buf
  | S fuel' =>
    if u <? 10 then String (digit_byte u) buf
    else formatBits fuel' (u / 10) (String (digit_byte (u mod 10)) buf)
  end.

Definition FormatUint (u : Z) : string := formatBits 20 u "".

(** [fmt.Sprintf("%s://%s:%d", kind, ip, port)] with [port] a [uint64]. *)
Definition Sprintf_endpoint (kind ip : string) (port : Z) : string :=
  kind +:+ "://" +:+ ip +:+ ":" +:+ FormatUint port.

(** Lines 160-170: the body of the loop over the records. Reading a key that
    a Go map lacks gives the empty string. *)
Definition service_instance_of (r : Registry) (i : Instance) : ServiceInstance :=
  let kind :=
    match inst_Metadata i !! "kind" with
    | Some k => k
    | None => kind (opts r)
    end in
  {| ID := InstanceId i;
     Name := ServiceName i;
     Version := default "" (inst_Metadata i !! "version");
     Metadata := inst_Metadata i;
     Endpoints := [Sprintf_endpoint kind (Ip i) (Port i)] |}.

(** registry.go, lines 149-173. *)
Definition GetService (r : Registry) (serviceName : string) (h : history)
    : (list ServiceInstance * option error) * history :=
  let param := {| sel_ServiceName := serviceName;
                  sel_GroupName := group (opts r);
                  sel_HealthyOnly := true |} in
  let '(res, err) := SelectInstances (cli r) h param in
  let h' := h ++ [CallSelectInstances param] in
  match err with
  | Some e => (([], Some (SdkError e)), h')
  | None =>
    ((fold_left (fun items i => items ++ [service_instance_of r i]) res [], None), h')
  end.

(** ** Go's standard library

    [url.Parse], [net.SplitHostPort] and [strconv.Atoi] as the Go
    distribution implements them (net/url/url.go, net/ipsock.go and
    strconv/atoi.go of Go 1.21), on strings of bytes, with [int] of 64 bits.  Of a parsed
    URL only [Scheme] and [Host] are kept; the other components are parsed
    for the errors they raise. *)
Module Go.

Definition byte (c : ascii) : Z := Z.of_N (N_of_ascii c).

Definition is_lower (c : ascii) : bool := (97 <=? byte c) && (byte c <=? 122).
Definition is_upper (c : ascii) : bool := (65 <=? byte c) && (byte c <=? 90).
Definition is_digit (c : ascii) : bool := (48 <=? byte c) && (byte c <=? 57).
Definition is_alpha (c : ascii) : bool := is_lower c || is_upper c.

(** Is [c] one of the bytes of [set]? *)
Fixpoint byte_in (c : ascii) (set : string) : bool :=
  match set with
  | EmptyString => false
  | String d set' => Ascii.eqb c d || byte_in c set'
  end.

Fixpoint any_byte (P : ascii -> bool) (s : string) : bool :=
  match s with
  | EmptyString => false
  | String c s' => P c || any_byte P s'
  end.

Fixpoint all_bytes (P : ascii -> bool) (s : string) : bool :=
  match s with
  | EmptyString => true
  | String c s' => P c && all_bytes P s'
  end.

Fixpoint take (n : nat) (s : string) : string :=
  match n, s with
  | S n', String c s' => String c (take n' s')
  | _, _ => EmptyString
  end.

Fixpoint drop (n : nat) (s : string) : string :=
  match n, s with
  | S n', String _ s' => drop n' s'
  | _, _ => s
  end.

#[global] Arguments take !n !s /.
#[global] Arguments drop !n !s /.

(** [strings.IndexByte]. *)
Fixpoint IndexByte (s : string) (c : ascii) : option nat :=
  match s with
  | EmptyString => None
  | String d s' =>
    if Ascii.eqb d c then Some O else option_map S (IndexByte s' c)
  end.

(** [strings.LastIndexByte]. *)
Fixpoint LastIndexByte (s : string) (c : ascii) : option nat :=
  match s with
  | EmptyString => None
  | String d s' =>
    match LastIndexByte s' c with
    | Some i => Some (S i)
    | None => if Ascii.eqb d c then Some O else None
    end
  end.

(** [strings.Index]. *)
Fixpoint Index (s sep : string) : option nat :=
  if String.prefix sep s then Some O
  else match s with
       | EmptyString => None
       | String _ s' => option_map S (Index s' sep)
       end.

(** [strings.Cut] with a separator of one byte. *)
Definition Cut (s : string) (sep : ascii) : string * string * bool :=
  match IndexByte s sep with
  | Some i => (take i s, drop (S i) s, true)
  | None => (s, EmptyString, false)
  end.

(** [strings.ToLower] on ASCII letters. *)
Definition lower_byte (c : ascii) : ascii :=
  if is_upper c then ascii_of_N (Z.to_N (byte c + 32)) else c.

Fixpoint ToLower (s : string) : string :=
  match s with
  | EmptyString => EmptyString
  | String c s' => String (lower_byte c) (ToLower s')
  end.

(** *** net/url *)

Inductive encoding : Type :=
  encodePath | encodeHost | encodeZone | encodeUserPassword | encodeFragment.

Definition is_host_mode (mode : encoding) : bool :=
  match mode with encodeHost | encodeZone => true | _ => false end.

Definition ishex (c : ascii) : bool :=
  is_digit c
  || ((97 <=? byte c) && (byte c <=? 102))
  || ((65 <=? byte c) && (byte c <=? 70)).

Definition unhex (c : ascii) : Z :=
  if is_digit c then byte c - 48
  else if (97 <=? byte c) && (byte c <=? 102) then byte c - 97 + 10
  else if (65 <=? byte c) && (byte c <=? 70) then byte c - 65 + 10
  else 0.

(** [shouldEscape(c, encodeHost)]: every byte but the letters, the digits and
    the punctuation a host may hold. *)
Definition shouldEscape_host (c : ascii) : bool :=
  negb (is_alpha c || is_digit c || byte_in c "!$&'()*+,;=:[]<>-_.~"
        || (byte c =? 34)).

(** [unescape(s, mode)]. The source checks the escapes in a first pass and
    decodes in a second one; here a byte is decoded once everything before it
    has been checked, which gives the same result and the same first error. *)
Fixpoint unescape (s : string) (mode : encoding) : string + url_err :=
  match s with
  | EmptyString => inl EmptyString
  | String c rest =>
    if Ascii.eqb c "%" then
      match rest with
      | String a (String b rest') =>
        if negb (ishex a && ishex b) then inr (EscapeError (take 3 s))
        else if match mode with encodeHost => true | _ => false end
                && (unhex a <? 8) && negb (String.eqb (take 3 s) "%25")
        then inr (EscapeError (take 3 s))
        else
          let v := ascii_of_N (Z.to_N (unhex a * 16 + unhex b)) in
          if match mode with encodeZone => true | _ => false end
             && negb (String.eqb (take 3 s) "%25")
             && negb (Ascii.eqb v " ") && shouldEscape_host v
          then inr (EscapeError (take 3 s))
          else match unescape rest' mode with
               | inl t => inl (String v t)
               | inr e => inr e
               end
      | _ => inr (EscapeError (take 3 s))
      end
    else
      if is_host_mode mode && negb (Ascii.eqb c "+")
         && (byte c <? 128) && shouldEscape_host c
      then inr (InvalidHostError (String c EmptyString))
      else match unescape rest mode with
           | inl t => inl (String c t)
           | inr e => inr e
           end
  end.

(** [getScheme]: the outcome of the scan. *)
Inductive scheme_scan : Type :=
| NoScheme
| SchemeMissing
| SchemeAt (scheme rest : string).

Definition scheme_cons (c : ascii) (r : scheme_scan) : scheme_scan :=
  match r with
  | SchemeAt scheme rest => SchemeAt (String c scheme) rest
  | _ => r
  end.

Fixpoint getScheme_from (first : bool) (s : string) : scheme_scan :=
  match s with
  | EmptyString => NoScheme
  | String c s' =>
    if is_alpha c then scheme_cons c (getScheme_from false s')
    else if is_digit c || byte_in c "+-." then
      if first then NoScheme else scheme_cons c (getScheme_from false s')
    else if Ascii.eqb c ":" then
      if first then SchemeMissing else SchemeAt EmptyString s'
    else NoScheme
  end.

Definition getScheme (rawURL : string) : (string * string) + url_err :=
  match getScheme_from true rawURL with
  | NoScheme => inl (EmptyString, rawURL)
  | SchemeMissing => inr MissingProtocolScheme
  | SchemeAt scheme rest => inl (scheme, rest)
  end.

(** [validOptionalPort]. *)
Definition validOptionalPort (port : string) : bool :=
  match port with
  | EmptyString => true
  | String c digits => Ascii.eqb c ":" && all_bytes is_digit digits
  end.

(** [parseHost]. *)
Definition parseHost (host : string) : string + url_err :=
  if String.prefix "[" host then
    match LastIndexByte host "]" with
    | None => inr MissingBracketInHost
    | Some i =>
      let colonPort := drop (S i) host in
      if negb (validOptionalPort colonPort) then inr (InvalidPortAfterHost colonPort)
      else
        match Index (take i host) "%25" with
        | Some zone =>
          match unescape (take zone host) encodeHost with
          | inr e => inr e
          | inl host1 =>
            match unescape (drop zone (take i host)) encodeZone with
            | inr e => inr e
            | inl host2 =>
              match unescape (drop i host) encodeHost with
              | inr e => inr e
              | inl host3 => inl (host1 +:+ host2 +:+ host3)
              end
            end
          end
        | None => unescape host encodeHost
        end
    end
  else
    match LastIndexByte host ":" with
    | Some i =>
      let colonPort := drop i host in
      if negb (validOptionalPort colonPort) then inr (InvalidPortAfterHost colonPort)
      else unescape host encodeHost
    | None => unescape host encodeHost
    end.

(** [validUserinfo]; a byte outside ASCII belongs to a rune that is not in
    the list. *)
Definition validUserinfo (s : string) : bool :=
  all_bytes (fun c => is_alpha c || is_digit c || byte_in c "-._:~!$&'()*+,;=%@") s.

(** [parseAuthority], for the host and the error. *)
Definition parseAuthority (authority : string) : string + url_err :=
  match LastIndexByte authority "@" with
  | None => parseHost authority
  | Some i =>
    match parseHost (drop (S i) authority) with
    | inr e => inr e
    | inl host =>
      let userinfo := take i authority in
      if negb (validUserinfo userinfo) then inr InvalidUserinfo
      else
        let '(username, password, _) := Cut userinfo ":" in
        match unescape username encodeUserPassword with
        | inr e => inr e
        | inl _ =>
          match unescape password encodeUserPassword with
          | inr e => inr e
          | inl _ => inl host
          end
        end
    end
  end.

Definition stringContainsCTLByte (s : string) : bool :=
  any_byte (fun c => (byte c <? 32) || (byte c =? 127)) s.

(** [parse(rawURL, false)]. Both branches that split the query off leave in
    [rest] what precedes the first question mark. *)
Definition parse (rawURL : string) : URL + url_err :=
  if stringContainsCTLByte rawURL then inr InvalidControlCharacter
  else if String.eqb rawURL "*" then inl {| Scheme := EmptyString; Host := EmptyString |}
  else
    match getScheme rawURL with
    | inr e => inr e
    | inl (scheme, rest) =>
      let scheme := ToLower scheme in
      let rest := fst (fst (Cut rest "?")) in
      if negb (String.prefix "/" rest) && negb (String.eqb scheme EmptyString)
      then inl {| Scheme := scheme; Host := EmptyString |}
      else if negb (String.prefix "/" rest)
              && any_byte (fun c => Ascii.eqb c ":") (fst (fst (Cut rest "/")))
      then inr FirstPathSegmentColon
      else if (negb (String.eqb scheme EmptyString) || negb (String.prefix "///" rest))
              && String.prefix "//" rest
      then
        let authority := drop 2 rest in
        let '(authority, rest) :=
          match IndexByte authority "/" with
          | Some i => (take i authority, drop i authority)
          | None => (authority, EmptyString)
          end in
        match parseAuthority authority with
        | inr e => inr e
        | inl host =>
          match unescape rest encodePath with
          | inr e => inr e
          | inl _ => inl {| Scheme := scheme; Host := host |}
          end
        end
      else
        match unescape rest encodePath with
        | inr e => inr e
        | inl _ => inl {| Scheme := scheme; Host := EmptyString |}
        end
    end.

(** [url.Parse]. *)
Definition Parse (rawURL : string) : result URL :=
  let '(u, frag, _) := Cut rawURL "#" in
  match parse u with
  | inr e => inr (UrlError "parse" u e)
  | inl url =>
    if String.eqb frag EmptyString then inl url
    else match unescape frag encodeFragment with
         | inr e => inr (UrlError "parse" rawURL e)
         | inl _ => inl url
         end
  end.

(** *** net *)

Definition missingPort : string := "missing port in address".
Definition tooManyColons : string := "too many colons in address".

(** [net.SplitHostPort]. *)
Definition SplitHostPort (hostport : string) : result (string * string) :=
  let addrErr (addr why : string) : result (string * string) :=
    inr (AddrError why addr) in
  match LastIndexByte hostport ":" with
  | None => addrErr hostport missingPort
  | Some i =>
    let finish (host : string) (j k : nat) : result (string * string) :=
      if any_byte (fun c => Ascii.eqb c "[") (drop j hostport)
      then addrErr hostport "unexpected '[' in address"
      else if any_byte (fun c => Ascii.eqb c "]") (drop k hostport)
      then addrErr hostport "unexpected ']' in address"
      else inl (host, drop (S i) hostport) in
    if String.prefix "[" hostport then
      match IndexByte hostport "]" with
      | None => addrErr hostport "missing ']' in address"
      | Some end_ =>
        if (S end_ =? String.length hostport)%nat then addrErr hostport missingPort
        else if (S end_ =? i)%nat then finish (drop 1 (take end_ hostport)) 1%nat (S end_)
        else if String.prefix ":" (drop (S end_) hostport)
        then addrErr hostport tooManyColons
        else addrErr hostport missingPort
      end
    else
      let host := take i hostport in
      if any_byte (fun c => Ascii.eqb c ":") host then addrErr hostport tooManyColons
      else finish host 0%nat 0%nat
  end.

(** *** strconv *)

Definition syntaxError (fn str : string) : error := NumError fn str ErrSyntax.
Definition rangeError (fn str : string) : error := NumError fn str ErrRange.

(** The loop of [ParseUint(s, 10, 64)] from the value [n] on; an error is
    the kind of the [*NumError]. *)
Fixpoint ParseUint_loop (s : string) (n : Z) : Z + num_err :=
  match s with
  | EmptyString => inl n
  | String c s' =>
    if negb (is_digit c) then inr ErrSyntax
    else if n >=? (2 ^ 64 - 1) / 10 + 1 then inr ErrRange
    else
      let n10 := n * 10 in
      let n1 := (n10 + (byte c - 48)) mod 2 ^ 64 in
      if n1 <? n10 then inr ErrRange else ParseUint_loop s' n1
  end.

Definition ParseUint (s : string) : Z + num_err :=
  match s with
  | EmptyString => inr ErrSyntax
  | _ => ParseUint_loop s 0
  end.

(** [ParseInt(s, 10, 0)], its errors as [Atoi] relabels them. *)
Definition ParseInt (fn s : string) : result Z :=
  match s with
  | EmptyString => inr (syntaxError fn s)
  | String c s1 =>
    let neg := Ascii.eqb c "-" in
    let digits := if Ascii.eqb c "+" || neg then s1 else s in
    match ParseUint digits with
    | inr ErrSyntax => inr (syntaxError fn s)
    | r =>
      let un := match r with inl un => un | inr _ => 2 ^ 64 - 1 end in
      let cutoff := 2 ^ 63 in
      if negb neg && (un >=? cutoff) then inr (rangeError fn s)
      else if neg && (un >? cutoff) then inr (rangeError fn s)
      else inl (if neg then - un else un)
    end
  end.

(** The fast path of [Atoi]: fewer than 19 bytes, which cannot overflow. *)
Fixpoint Atoi_fast_loop (s : string) (n : Z) : option Z :=
  match s with
  | EmptyString => Some n
  | String ch s' =>
    if negb (is_digit ch) then None
    else Atoi_fast_loop s' (n * 10 + (byte ch - 48))
  end.

(** [strconv.Atoi]. *)
Definition Atoi (s : string) : result Z :=
  let sLen := String.length s in
  if (0 <? sLen)%nat && (sLen <? 19)%nat then
    match s with
    | EmptyString => inr (syntaxError "Atoi" s)
    | String c s1 =>
      let signed := Ascii.eqb c "-" || Ascii.eqb c "+" in
      let digits := if signed then s1 else s in
      if signed && (String.length digits <? 1)%nat then inr (syntaxError "Atoi" s)
      else
        match Atoi_fast_loop digits 0 with
        | None => inr (syntaxError "Atoi" s)
        | Some n => inl (if Ascii.eqb c "-" then - n else n)
        end
    end
  else ParseInt "Atoi" s.

End Go.

(** The library the adapter is linked with. *)
#[export] Instance GoStd : GoLib := {|
  url_Parse := Go.Parse;
  net_SplitHostPort := Go.SplitHostPort;
  strconv_Atoi := Go.Atoi
|}.

(** ** What the specification prescribes for an endpoint

    These two predicates follow the words of the specification; the theorems
    compare them with what [Register] and [Deregister] hand to the client. *)

(** The two tags the merged metadata starts from. *)
Definition tags (scheme version : string) : gmap string string :=
  {[ "kind" := scheme; "version" := version ]}.

(** The registration call of [endpoint]: IP and port of the parsed endpoint,
    the name joined to the scheme, the configured weight, the three flags,
    the instance's metadata laid over the two tags, the configured cluster
    and group. *)
Definition registration_of `{GoLib} (r : Registry) (si : ServiceInstance)
    (endpoint : string) (param : RegisterInstanceParam) : Prop :=
  exists (u : URL) (host port : string) (p : Z),
    url_Parse endpoint = inl u /\
    net_SplitHostPort (Host u) = inl (host, port) /\
    strconv_Atoi port = inl p /\
    reg_Ip param = host /\
    reg_Port param = uint64 p /\
    reg_ServiceName param = Name si +:+ "." +:+ Scheme u /\
    reg_Weight param = weight (opts r) /\
    reg_Enable param = true /\
    reg_Healthy param = true /\
    reg_Ephemeral param = true /\
    reg_Metadata param = Metadata si ∪ tags (Scheme u) (Version si) /\
    reg_ClusterName param = cluster (opts r) /\
    reg_GroupName param = group (opts r).

(** The deregistration call of [endpoint]. *)
Definition deregistration_of `{GoLib} (r : Registry) (service : ServiceInstance)
    (endpoint : string) (param : DeregisterInstanceParam) : Prop :=
  exists (u : URL) (host port : string) (p : Z),
    url_Parse endpoint = inl u /\
    net_SplitHostPort (Host u) = inl (host, port) /\
    strconv_Atoi port = inl p /\
    dereg_Ip param = host /\
    dereg_Port param = uint64 p /\
    dereg_ServiceName param = Name service +:+ "." +:+ Scheme u /\
    dereg_Cluster param = cluster (opts r) /\
    dereg_GroupName param = group (opts r) /\
    dereg_Ephemeral param = true.

(** The metadata the specification prescribes for the registration of
    [endpoint]: the tags kind, the endpoint's own scheme, and version, the
    instance's version, overlaid with every entry of the instance's
    metadata, whose value wins on a key they share. *)
Definition merged_metadata_of `{GoLib} (si : ServiceInstance)
    (endpoint : string) (param : RegisterInstanceParam) : Prop :=
  exists u : URL,
    url_Parse endpoint = inl u /\
    reg_Metadata param = Metadata si ∪ tags (Scheme u) (Version si) /\
    (forall k v, Metadata si !! k = Some v -> reg_Metadata param !! k = Some v) /\
    (forall k, Metadata si !! k = None ->
               reg_Metadata param !! k = tags (Scheme u) (Version si) !! k) /\
    (Metadata si !! "kind" = None ->
     reg_Metadata param !! "kind" = Some (Scheme u)) /\
    (Metadata si !! "version" = None ->
     reg_Metadata param !! "version" = Some (Version si)).

(** An endpoint is well formed when the three parsing steps accept it. *)
Definition well_formed `{GoLib} (endpoint : string) : Prop :=
  exists x, parse_endpoint endpoint = inl x.

(** The instance the specification prescribes for a record of the naming
    service. *)
Definition reconstructed_from (r : Registry) (rec : Instance)
    (item : ServiceInstance) : Prop :=
  ID item = InstanceId rec /\
  Name item = ServiceName rec /\
  Version item = default EmptyString (inst_Metadata rec !! "version") /\
  Metadata item = inst_Metadata rec /\
  exists k,
    Endpoints item = [k +:+ "://" +:+ Ip rec +:+ ":" +:+ FormatUint (Port rec)] /\
    match inst_Metadata rec !! "kind" with
    | Some k' => k = k'
    | None => k = kind (opts r)
    end.

(** The value of a string of digits read as a decimal number. *)
Fixpoint decimal_from (n : Z) (digits : string) : Z :=
  match digits with
  | EmptyString => n
  | String c digits' => decimal_from (n * 10 + (Go.byte c - 48)) digits'
  end.

Definition decimal (digits : string) : Z := decimal_from 0 digits.

(** ** A fake client

    The in-memory naming service of the round-trip property of section 8.
    It accepts every call; its records are the registrations not
    deregistered since, one per service name, group, cluster, IP and port; a
    selection returns the records of the service name and group, the healthy
    and enabled ones when asked so. *)

Definition same_instance (a b : RegisterInstanceParam) : bool :=
  String.eqb (reg_ServiceName a) (reg_ServiceName b)
  && String.eqb (reg_GroupName a) (reg_GroupName b)
  && String.eqb (reg_ClusterName a) (reg_ClusterName b)
  && String.eqb (reg_Ip a) (reg_Ip b)
  && (reg_Port a =? reg_Port b).

Definition deregisters (d : DeregisterInstanceParam) (a : RegisterInstanceParam) : bool :=
  String.eqb (dereg_ServiceName d) (reg_ServiceName a)
  && String.eqb (dereg_GroupName d) (reg_GroupName a)
  && String.eqb (dereg_Cluster d) (reg_ClusterName a)
  && String.eqb (dereg_Ip d) (reg_Ip a)
  && (dereg_Port d =? reg_Port a).

Definition store_step (st : list RegisterInstanceParam) (c : Call)
    : list RegisterInstanceParam :=
  match c with
  | CallRegisterInstance p => List.filter (fun a => negb (same_instance p a)) st ++ [p]
  | CallDeregisterInstance d => List.filter (fun a => negb (deregisters d a)) st
  | CallSelectInstances _ => st
  end.

Definition store_of (h : history) : list RegisterInstanceParam :=
  fold_left store_step h [].

Definition instance_of (p : RegisterInstanceParam) : Instance :=
  {| InstanceId := reg_Ip p +:+ "#" +:+ FormatUint (reg_Port p) +:+ "#"
                   +:+ reg_ClusterName p +:+ "#" +:+ reg_GroupName p
                   +:+ "@@" +:+ reg_ServiceName p;
     Ip := reg_Ip p;
     Port := reg_Port p;
     Weight := reg_Weight p;
     Healthy := reg_Healthy p;
     Enable := reg_Enable p;
     Ephemeral := reg_Ephemeral p;
     ClusterName := reg_ClusterName p;
     ServiceName := reg_ServiceName p;
     inst_Metadata := reg_Metadata p |}.

Definition selects (q : SelectInstancesParam) (a : RegisterInstanceParam) : bool :=
  String.eqb (reg_ServiceName a) (sel_ServiceName q)
  && String.eqb (reg_GroupName a) (sel_GroupName q)
  && (negb (sel_HealthyOnly q) || (reg_Healthy a && reg_Enable a)).

Definition fake_client : INamingClient :=
  {| RegisterInstance := fun _ _ => (true, None);
     DeregisterInstance := fun _ _ => (true, None);
     SelectInstances := fun h q =>
       (map instance_of (List.filter (selects q) (store_of h)), None) |}.

(** A client whose registrations fail from the [n]-th call on. *)
Definition failing_client (n : nat) (msg : string) : INamingClient :=
  {| RegisterInstance := fun h _ =>
       if (n <=? length h)%nat then (false, Some msg) else (true, None);
     DeregisterInstance := fun _ _ => (true, None);
     SelectInstances := fun _ _ => ([], None) |}.

(** A client whose deregistrations fail from the [n]-th call on. *)
Definition failing_deregister_client (n : nat) (msg : string) : INamingClient :=
  {| RegisterInstance := fun _ _ => (true, None);
     DeregisterInstance := fun h _ =>
       if (n <=? length h)%nat then (false, Some msg) else (true, None);
     SelectInstances := fun _ _ => ([], None) |}.

(** ** Options by name

    The five options of registry.go as data, to say which one of a list
    decides a field. *)
Inductive setting : Type :=
| SetPrefix (p : string)
| SetWeight (w : float)
| SetCluster (c : string)
| SetGroup (g : string)
| SetDefaultKind (k : string).

Definition option_of (s : setting) : Option :=
  match s with
  | SetPrefix p => WithPrefix p
  | SetWeight w => WithWeight w
  | SetCluster c => WithCluster c
  | SetGroup g => WithGroup g
  | SetDefaultKind k => WithDefaultKind k
  end.

(** The value the last setting that [pick] recognises gives, [default]
    without one. *)
Fixpoint last_setting {A : Type} (pick : setting -> option A)
    (ss : list setting) (default : A) : A :=
  match ss with
  | [] => default
  | s :: ss' =>
    last_setting pick ss' (match pick s with Some a => a | None => default end)
  end.

Definition pick_prefix (s : setting) : option string :=
  match s with SetPrefix p => Some p | _ => None end.
Definition pick_weight (s : setting) : option float :=
  match s with SetWeight w => Some w | _ => None end.
Definition pick_cluster (s : setting) : option string :=
  match s with SetCluster c => Some c | _ => None end.
Definition pick_group (s : setting) : option string :=
  match s with SetGroup g => Some g | _ => None end.
Definition pick_kind (s : setting) : option string :=
  match s with SetDefaultKind k => Some k | _ => None end.

(** ** The round trip of section 8, as the specification words it

    Registering an instance of a non-empty name and well-formed endpoints
    with the fake client, every endpoint is the endpoint of an instance that
    [GetService] returns, for some service name. *)
Definition roundtrip_as_stated : Prop :=
  forall (o : options) (si : ServiceInstance),
    Name si <> EmptyString ->
    Forall well_formed (Endpoints si) ->
    let r := {| opts := o; cli := fake_client |} in
    forall endpoint, In endpoint (Endpoints si) ->
      exists serviceName item,
        In item (fst (fst (GetService r serviceName (snd (Register r si [])))))
        /\ Endpoints item = [endpoint].

(** Endpoints in the form [GetService] writes them: a scheme of lower-case
    letters, digits and [+-.] after a first letter, a host of the bytes
    net/url accepts unescaped apart from the colon and the brackets, and a
    port below 2^63 in decimal digits without leading zeros. *)
Definition scheme_byte (c : ascii) : bool :=
  Go.is_lower c || Go.is_digit c || Go.byte_in c "+-.".

Definition host_byte (c : ascii) : bool :=
  (128 <=? Go.byte c)
  || (negb (Go.shouldEscape_host c) && negb (Go.byte_in c ":[]")).

(** The bytes of an authority [host:port] in that form, and of an endpoint. *)
Definition authority_byte (c : ascii) : bool :=
  host_byte c || Go.is_digit c || Ascii.eqb c ":".

Definition endpoint_byte (c : ascii) : bool :=
  scheme_byte c || authority_byte c || Ascii.eqb c "/".

Definition canonical_parts (scheme host : string) (port : Z) : Prop :=
  (exists c scheme', scheme = String c scheme' /\ Go.is_lower c = true
                     /\ Go.all_bytes scheme_byte scheme' = true) /\
  Go.all_bytes host_byte host = true /\
  0 <= port < 2 ^ 63.

Definition canonical (endpoint : string) : Prop :=
  exists scheme host port,
    canonical_parts scheme host port /\
    endpoint = Sprintf_endpoint scheme host port.

(** ** The merged metadata *)

(** The loop of lines 94-96 overlays the instance's metadata on the two tags:
    the union that prefers the instance's entries. *)
Lemma build_meta_union `{GoLib} (u : URL) (si : ServiceInstance) :
  build_meta u si =
  Metadata si ∪ <["version":=Version si]> (<["kind":=Scheme u]> ∅).
Proof.
  unfold build_meta.
  apply (map_fold_weak_ind (fun res m =>
    res = m ∪ <["version":=Version si]> (<["kind":=Scheme u]> ∅))).
  - now rewrite (left_id_L ∅ (∪)).
  - intros k v m res Hk ->. now rewrite insert_union_l.
Qed.

Lemma build_meta_lookup `{GoLib} (u : URL) (si : ServiceInstance) (k : string) :
  build_meta u si !! k =
  match Metadata si !! k with
  | Some v => Some v
  | None =>
    if String.eqb k "version" then Some (Version si)
    else if String.eqb k "kind" then Some (Scheme u)
    else None
  end.
Proof.
  rewrite build_meta_union, lookup_union.
  destruct (Metadata si !! k) as [v|] eqn:Hk.
  - now rewrite (union_Some_l v).
  - rewrite (left_id_L None union).
    destruct (String.eqb_spec k "version") as [->|Hv];
      [now rewrite lookup_insert_eq | rewrite lookup_insert_ne by congruence].
    destruct (String.eqb_spec k "kind") as [->|Hki];
      [now rewrite lookup_insert_eq | rewrite lookup_insert_ne by congruence].
    apply lookup_empty.
Qed.

Lemma tags_base (scheme version : string) :
  <["version":=version]> (<["kind":=scheme]> ∅) = tags scheme version.
Proof.
  unfold tags. rewrite insert_insert_ne by discriminate.
  now rewrite insert_empty.
Qed.

Lemma build_meta_tags `{GoLib} (u : URL) (si : ServiceInstance) :
  build_meta u si = Metadata si ∪ tags (Scheme u) (Version si).
Proof. now rewrite build_meta_union, tags_base. Qed.

(** ** The loops *)

Section Loops.
Context `{GoLib}.
Variables (r : Registry) (si : ServiceInstance).

Lemma parse_endpoint_inl endpoint u host p :
  parse_endpoint endpoint = inl (u, host, p) ->
  exists port, url_Parse endpoint = inl u /\
    net_SplitHostPort (Host u) = inl (host, port) /\
    strconv_Atoi port = inl p.
Proof.
  unfold parse_endpoint. intros Hp.
  destruct (url_Parse endpoint) as [u'|]; [|discriminate].
  destruct (net_SplitHostPort (Host u')) as [[host' port]|] eqn:Hs; [|discriminate].
  destruct (strconv_Atoi port) as [p'|] eqn:Ha; [|discriminate].
  injection Hp as -> -> ->. eauto.
Qed.

Lemma registration_of_param endpoint u host p :
  parse_endpoint endpoint = inl (u, host, p) ->
  registration_of r si endpoint (register_param r si u host p).
Proof.
  intros Hp. destruct (parse_endpoint_inl _ _ _ _ Hp) as (port & Hu & Hs & Ha).
  exists u, host, port, p. repeat split; try assumption.
  apply build_meta_tags.
Qed.

Lemma deregistration_of_param endpoint u host p :
  parse_endpoint endpoint = inl (u, host, p) ->
  deregistration_of r si endpoint (deregister_param r si u host p).
Proof.
  intros Hp. destruct (parse_endpoint_inl _ _ _ _ Hp) as (port & Hu & Hs & Ha).
  exists u, host, port, p. repeat split; assumption.
Qed.

(** The calls of a run of the registration loop are the registrations of the
    endpoints it got through, in their order; a run that returns no error got
    through all of them. *)
Lemma Register_loop_calls endpoints h :
  exists params,
    snd (Register_loop r si endpoints h) = h ++ map CallRegisterInstance params /\
    Forall2 (registration_of r si) (take (length params) endpoints) params /\
    (length params <= length endpoints)%nat /\
    (fst (Register_loop r si endpoints h) = None ->
     length params = length endpoints).
Proof.
  revert h. induction endpoints as [|endpoint rest IH]; intros h; simpl.
  - exists []. simpl. rewrite app_nil_r. repeat split; auto.
  - destruct (parse_endpoint endpoint) as [[[u host] p]|err] eqn:Hp.
    + destruct (RegisterInstance (cli r) h (register_param r si u host p))
        as [ok [e|]]; simpl.
      * exists [register_param r si u host p]. simpl. repeat split.
        -- constructor; [|constructor]. now apply registration_of_param.
        -- lia.
        -- discriminate.
      * destruct (IH (h ++ [CallRegisterInstance (register_param r si u host p)]))
          as (params & Hh & Hall & Hlen & Hnone).
        exists (register_param r si u host p :: params). simpl. repeat split.
        -- rewrite Hh, <- app_assoc. reflexivity.
        -- constructor; [now apply registration_of_param | exact Hall].
        -- lia.
        -- intros Hn. rewrite (Hnone Hn). reflexivity.
    + exists []. simpl. rewrite app_nil_r. repeat split; [constructor | lia | discriminate].
Qed.

Lemma Deregister_loop_calls endpoints h :
  exists params,
    snd (Deregister_loop r si endpoints h) = h ++ map CallDeregisterInstance params /\
    Forall2 (deregistration_of r si) (take (length params) endpoints) params /\
    (length params <= length endpoints)%nat /\
    (fst (Deregister_loop r si endpoints h) = None ->
     length params = length endpoints).
Proof.
  revert h. induction endpoints as [|endpoint rest IH]; intros h; simpl.
  - exists []. simpl. rewrite app_nil_r. repeat split; auto.
  - destruct (parse_endpoint endpoint) as [[[u host] p]|err] eqn:Hp.
    + destruct (DeregisterInstance (cli r) h (deregister_param r si u host p))
        as [ok [e|]]; simpl.
      * exists [deregister_param r si u host p]. simpl. repeat split.
        -- constructor; [|constructor]. now apply deregistration_of_param.
        -- lia.
        -- discriminate.
      * destruct (IH (h ++ [CallDeregisterInstance (deregister_param r si u host p)]))
          as (params & Hh & Hall & Hlen & Hnone).
        exists (deregister_param r si u host p :: params). simpl. repeat split.
        -- rewrite Hh, <- app_assoc. reflexivity.
        -- constructor; [now apply deregistration_of_param | exact Hall].
        -- lia.
        -- intros Hn. rewrite (Hnone Hn). reflexivity.
    + exists []. simpl. rewrite app_nil_r. repeat split; [constructor | lia | discriminate].
Qed.

Lemma Register_loop_app pre post h :
  Register_loop r si (pre ++ post) h =
  match Register_loop r si pre h with
  | (None, h1) => Register_loop r si post h1
  | failed => failed
  end.
Proof.
  revert h. induction pre as [|endpoint pre IH]; intros h; simpl; [reflexivity|].
  destruct (parse_endpoint endpoint) as [[[u host] p]|err]; [|reflexivity].
  destruct (RegisterInstance (cli r) h (register_param r si u host p)) as [ok [e|]];
    [reflexivity | apply IH].
Qed.

(** A loop over well-formed endpoints against a client that accepts every
    call runs to its end. *)
Lemma Register_loop_accepted endpoints h :
  Forall well_formed endpoints ->
  (forall h' p, snd (RegisterInstance (cli r) h' p) = None) ->
  fst (Register_loop r si endpoints h) = None.
Proof.
  intros Hwf Hacc. revert h.
  induction Hwf as [|endpoint rest [[[u host] p] Hp] _ IH]; intros h; simpl; [reflexivity|].
  rewrite Hp. specialize (Hacc h (register_param r si u host p)).
  destruct (RegisterInstance (cli r) h (register_param r si u host p)) as [ok e].
  simpl in Hacc. subst e. apply IH.
Qed.

Lemma Deregister_loop_accepted endpoints h :
  Forall well_formed endpoints ->
  (forall h' p, snd (DeregisterInstance (cli r) h' p) = None) ->
  fst (Deregister_loop r si endpoints h) = None.
Proof.
  intros Hwf Hacc. revert h.
  induction Hwf as [|endpoint rest [[[u host] p] Hp] _ IH]; intros h; simpl; [reflexivity|].
  rewrite Hp. specialize (Hacc h (deregister_param r si u host p)).
  destruct (DeregisterInstance (cli r) h (deregister_param r si u host p)) as [ok e].
  simpl in Hacc. subst e. apply IH.
Qed.

(** Over well-formed endpoints the only error of the deregistration loop is
    one of the client. *)
Lemma Deregister_loop_error endpoints h err :
  Forall well_formed endpoints ->
  fst (Deregister_loop r si endpoints h) = Some err ->
  exists msg, err = SdkError msg.
Proof.
  intros Hwf. revert h.
  induction Hwf as [|endpoint rest [[[u host] p] Hp] _ IH]; intros h; simpl; [discriminate|].
  rewrite Hp.
  destruct (DeregisterInstance (cli r) h (deregister_param r si u host p)) as [ok [e|]]; simpl.
  - intros [= <-]. eauto.
  - apply IH.
Qed.

End Loops.

(** ** Discovery *)

Lemma fold_left_snoc_map {A B : Type} (f : A -> B) (l : list A) (acc : list B) :
  fold_left (fun items i => items ++ [f i]) l acc = acc ++ map f l.
Proof.
  revert acc. induction l as [|x l IH]; intros acc; simpl.
  - now rewrite app_nil_r.
  - rewrite IH, <- app_assoc. reflexivity.
Qed.

Lemma service_instance_of_reconstructed (r : Registry) (rec : Instance) :
  reconstructed_from r rec (service_instance_of r rec).
Proof.
  unfold reconstructed_from, service_instance_of; simpl.
  repeat split.
  destruct (inst_Metadata rec !! "kind") as [k|]; eexists; split; reflexivity.
Qed.

(** ** Facts about Go's library *)

Module GoFacts.
Import Go.

Ltac each_byte c := destruct c as [[] [] [] [] [] [] [] []]; vm_compute; intuition congruence.

Lemma append_cons (x : ascii) (a b : string) :
  String x a +:+ b = String x (a +:+ b).
Proof. reflexivity. Qed.

Lemma append_nil_l (b : string) : EmptyString +:+ b = b.
Proof. reflexivity. Qed.

Ltac str_simpl := simpl; rewrite ?append_cons, ?append_nil_l; simpl.

Lemma append_assoc (a b c : string) : (a +:+ b) +:+ c = a +:+ b +:+ c.
Proof. induction a as [|x a IH]; str_simpl; [reflexivity | now rewrite IH]. Qed.

Lemma length_append (a b : string) :
  String.length (a +:+ b) = (String.length a + String.length b)%nat.
Proof. induction a as [|x a IH]; str_simpl; [reflexivity | now rewrite IH]. Qed.

Lemma take_append (a b : string) : take (String.length a) (a +:+ b) = a.
Proof. induction a as [|x a IH]; str_simpl; [now destruct b | now rewrite IH]. Qed.

Lemma drop_append (a b : string) : drop (String.length a) (a +:+ b) = b.
Proof. induction a as [|x a IH]; str_simpl; [now destruct b | exact IH]. Qed.

Lemma all_bytes_append (P : ascii -> bool) (a b : string) :
  all_bytes P (a +:+ b) = all_bytes P a && all_bytes P b.
Proof.
  induction a as [|x a IH]; str_simpl; [reflexivity|].
  now rewrite IH, andb_assoc.
Qed.

Lemma any_byte_append (P : ascii -> bool) (a b : string) :
  any_byte P (a +:+ b) = any_byte P a || any_byte P b.
Proof.
  induction a as [|x a IH]; str_simpl; [reflexivity|].
  now rewrite IH, orb_assoc.
Qed.

Lemma all_bytes_impl (P Q : ascii -> bool) (s : string) :
  (forall c, P c = true -> Q c = true) ->
  all_bytes P s = true -> all_bytes Q s = true.
Proof.
  intros HPQ. induction s as [|c s IH]; simpl; [reflexivity|].
  intros [Hc Hs]%andb_prop. rewrite (HPQ c Hc). simpl. now apply IH.
Qed.

Lemma any_byte_none (P Q : ascii -> bool) (s : string) :
  (forall c, P c = true -> Q c = false) ->
  all_bytes P s = true -> any_byte Q s = false.
Proof.
  intros HPQ. induction s as [|c s IH]; simpl; [reflexivity|].
  intros [Hc Hs]%andb_prop. rewrite (HPQ c Hc). simpl. now apply IH.
Qed.

Lemma IndexByte_none (s : string) (c : ascii) :
  any_byte (fun d => Ascii.eqb d c) s = false -> IndexByte s c = None.
Proof.
  induction s as [|d s IH]; simpl; [reflexivity|].
  intros [Hd Hs]%orb_false_elim. rewrite Hd, (IH Hs). reflexivity.
Qed.

Lemma LastIndexByte_none (s : string) (c : ascii) :
  any_byte (fun d => Ascii.eqb d c) s = false -> LastIndexByte s c = None.
Proof.
  induction s as [|d s IH]; simpl; [reflexivity|].
  intros [Hd Hs]%orb_false_elim. rewrite Hd, (IH Hs). reflexivity.
Qed.

(** The last occurrence of [c] in [a ++ c :: b] when [b] has none. *)
Lemma LastIndexByte_append (a b : string) (c : ascii) :
  any_byte (fun d => Ascii.eqb d c) b = false ->
  LastIndexByte (a +:+ String c b) c = Some (String.length a).
Proof.
  intros Hb. induction a as [|x a IH]; str_simpl.
  - rewrite (LastIndexByte_none _ _ Hb), Ascii.eqb_refl. reflexivity.
  - rewrite IH. reflexivity.
Qed.

(** Where the last occurrence is, the string splits. *)
Lemma LastIndexByte_split (s : string) (c : ascii) (i : nat) :
  LastIndexByte s c = Some i ->
  s = take i s +:+ String c (drop (S i) s) /\
  any_byte (fun d => Ascii.eqb d c) (drop (S i) s) = false.
Proof.
  revert i. induction s as [|d s IH]; intros i; simpl; [discriminate|].
  destruct (LastIndexByte s c) as [j|] eqn:Hj.
  - intros [= <-]. destruct (IH j eq_refl) as [Hs Hnone]. str_simpl.
    split; [now rewrite <- Hs | exact Hnone].
  - destruct (Ascii.eqb_spec d c) as [->|]; [|discriminate].
    intros [= <-]. str_simpl. split; [now destruct s|].
    destruct (any_byte (fun d => Ascii.eqb d c) s) eqn:Hany; [|now destruct s].
    clear IH. exfalso. induction s as [|x s IHs]; simpl in *; [discriminate|].
    destruct (LastIndexByte s c); [discriminate|].
    destruct (Ascii.eqb x c); [discriminate|]. simpl in Hany. auto.
Qed.

Lemma drop_0 (s : string) : drop 0 s = s.
Proof. now destruct s. Qed.

(** *** Bytes *)

Lemma digit_facts (c : ascii) :
  is_digit c = true ->
  Ascii.eqb c ":" = false /\ Ascii.eqb c "%" = false /\ Ascii.eqb c "[" = false
  /\ Ascii.eqb c "]" = false /\ shouldEscape_host c = false
  /\ (byte c <? 32) || (byte c =? 127) = false
  /\ Ascii.eqb c "-" = false /\ Ascii.eqb c "+" = false
  /\ 0 <= byte c - 48 <= 9.
Proof. each_byte c. Qed.

Lemma scheme_byte_facts (c : ascii) :
  scheme_byte c = true ->
  Ascii.eqb c ":" = false /\ lower_byte c = c
  /\ (is_alpha c || (is_digit c || byte_in c "+-.")) = true
  /\ (byte c <? 32) || (byte c =? 127) = false
  /\ Ascii.eqb c "#" = false.
Proof. each_byte c. Qed.

Lemma lower_facts (c : ascii) :
  is_lower c = true ->
  is_alpha c = true /\ scheme_byte c = true /\ Ascii.eqb c "*" = false.
Proof. each_byte c. Qed.

Lemma host_byte_facts (c : ascii) :
  host_byte c = true ->
  Ascii.eqb c ":" = false /\ Ascii.eqb c "%" = false /\ Ascii.eqb c "[" = false
  /\ Ascii.eqb c "]" = false /\ Ascii.eqb c "/" = false /\ Ascii.eqb c "?" = false
  /\ Ascii.eqb c "#" = false /\ Ascii.eqb c "@" = false
  /\ (byte c <? 32) || (byte c =? 127) = false
  /\ (negb (Ascii.eqb c "+") && (byte c <? 128) && shouldEscape_host c) = false.
Proof. each_byte c. Qed.

(** *** unescape *)

(** A string without a percent sign and without a byte a host may not hold
    is its own unescaping. *)
Lemma unescape_plain (s : string) (mode : encoding) :
  all_bytes (fun c => negb (Ascii.eqb c "%")
                      && negb (negb (Ascii.eqb c "+") && (byte c <? 128)
                               && shouldEscape_host c)) s = true ->
  unescape s mode = inl s.
Proof.
  induction s as [|c s IH]; simpl; [reflexivity|].
  intros [[Hp Hh]%andb_prop Hs]%andb_prop.
  apply negb_true_iff in Hp, Hh. rewrite Hp.
  replace (is_host_mode mode && negb (Ascii.eqb c "+") && (byte c <? 128)
           && shouldEscape_host c) with false
    by (destruct (is_host_mode mode); simpl; congruence).
  now rewrite (IH Hs).
Qed.

(** *** Parsing what [GetService] writes *)

Lemma getScheme_from_scheme (s rest : string) :
  all_bytes scheme_byte s = true ->
  getScheme_from false (s +:+ String ":" rest) = SchemeAt s rest.
Proof.
  induction s as [|c s IH]; str_simpl; [reflexivity|].
  intros [Hc Hs]%andb_prop. rewrite (IH Hs).
  destruct (scheme_byte_facts c Hc) as (_ & _ & Hcls & _).
  destruct (is_alpha c); [reflexivity|].
  simpl in Hcls. now rewrite Hcls.
Qed.

Lemma ToLower_scheme (s : string) :
  all_bytes scheme_byte s = true -> ToLower s = s.
Proof.
  induction s as [|c s IH]; simpl; [reflexivity|].
  intros [Hc Hs]%andb_prop.
  destruct (scheme_byte_facts c Hc) as (_ & -> & _). now rewrite (IH Hs).
Qed.

Lemma prefix_byte_none (c : ascii) (s : string) :
  any_byte (fun d => Ascii.eqb d c) s = false ->
  String.prefix (String c EmptyString) s = false.
Proof.
  destruct s as [|d s]; [reflexivity|]. simpl.
  intros [Hd _]%orb_false_elim.
  destruct (ascii_dec c d) as [->|]; [|reflexivity].
  now rewrite Ascii.eqb_refl in Hd.
Qed.

Lemma authority_byte_facts (c : ascii) :
  authority_byte c = true ->
  Ascii.eqb c "[" = false /\ Ascii.eqb c "]" = false /\ Ascii.eqb c "/" = false
  /\ Ascii.eqb c "?" = false /\ Ascii.eqb c "#" = false /\ Ascii.eqb c "@" = false
  /\ (byte c <? 32) || (byte c =? 127) = false
  /\ negb (Ascii.eqb c "%")
     && negb (negb (Ascii.eqb c "+") && (byte c <? 128) && shouldEscape_host c) = true.
Proof. each_byte c. Qed.

Lemma authority_bytes (host digits : string) :
  all_bytes host_byte host = true ->
  all_bytes is_digit digits = true ->
  all_bytes authority_byte (host +:+ String ":" digits) = true.
Proof.
  intros Hh Hd. rewrite all_bytes_append. simpl.
  rewrite (all_bytes_impl host_byte authority_byte host),
          (all_bytes_impl is_digit authority_byte digits); try assumption.
  - reflexivity.
  - intros c Hc. unfold authority_byte. rewrite Hc. now rewrite orb_true_r.
  - intros c Hc. unfold authority_byte. now rewrite Hc.
Qed.

Lemma parseHost_authority (host digits : string) :
  all_bytes host_byte host = true ->
  all_bytes is_digit digits = true ->
  parseHost (host +:+ String ":" digits) = inl (host +:+ String ":" digits).
Proof.
  intros Hh Hd. pose proof (authority_bytes host digits Hh Hd) as Ha.
  unfold parseHost.
  rewrite prefix_byte_none
    by (apply (any_byte_none authority_byte); [apply authority_byte_facts | exact Ha]).
  rewrite LastIndexByte_append
    by (apply (any_byte_none is_digit); [apply digit_facts | exact Hd]).
  rewrite drop_append. simpl. rewrite Hd. simpl.
  apply unescape_plain.
  apply (all_bytes_impl authority_byte); [apply authority_byte_facts | exact Ha].
Qed.

Lemma endpoint_byte_facts (c : ascii) :
  endpoint_byte c = true ->
  Ascii.eqb c "#" = false /\ (byte c <? 32) || (byte c =? 127) = false.
Proof. each_byte c. Qed.

Lemma endpoint_bytes (c : ascii) (scheme' host digits : string) :
  is_lower c = true ->
  all_bytes scheme_byte scheme' = true ->
  all_bytes host_byte host = true ->
  all_bytes is_digit digits = true ->
  all_bytes endpoint_byte
    (String c scheme' +:+ "://" +:+ host +:+ ":" +:+ digits) = true.
Proof.
  intros Hc Hs Hh Hd. pose proof (authority_bytes host digits Hh Hd) as Ha.
  rewrite !append_cons, !append_nil_l. simpl. rewrite all_bytes_append. simpl.
  assert (Hs' : all_bytes endpoint_byte scheme' = true).
  { apply (all_bytes_impl scheme_byte); [|exact Hs].
    intros x Hx. unfold endpoint_byte. now rewrite Hx. }
  assert (Ha' : all_bytes endpoint_byte (host +:+ String ":" digits) = true).
  { apply (all_bytes_impl authority_byte); [|exact Ha].
    intros x Hx. unfold endpoint_byte. rewrite Hx. now rewrite orb_true_r. }
  rewrite Hs', Ha'.
  destruct (lower_facts c Hc) as (_ & Hsb & _).
  unfold endpoint_byte at 1. rewrite Hsb. reflexivity.
Qed.

Lemma Parse_canonical (c : ascii) (scheme' host digits : string) :
  is_lower c = true ->
  all_bytes scheme_byte scheme' = true ->
  all_bytes host_byte host = true ->
  all_bytes is_digit digits = true ->
  Parse (String c scheme' +:+ "://" +:+ host +:+ ":" +:+ digits) =
  inl {| Scheme := String c scheme'; Host := host +:+ ":" +:+ digits |}.
Proof.
  intros Hc Hs Hh Hd.
  pose proof (authority_bytes host digits Hh Hd) as Ha.
  pose proof (endpoint_bytes c scheme' host digits Hc Hs Hh Hd) as He.
  destruct (lower_facts c Hc) as (Halpha & Hsb & Hstar).
  unfold Parse, Cut.
  rewrite IndexByte_none
    by (apply (any_byte_none endpoint_byte); [apply endpoint_byte_facts | exact He]).
  rewrite String.eqb_refl.
  unfold parse, stringContainsCTLByte.
  rewrite (any_byte_none endpoint_byte _ _ ltac:(apply endpoint_byte_facts) He).
  rewrite !append_cons, !append_nil_l. simpl String.eqb. rewrite Hstar.
  unfold getScheme. simpl getScheme_from. rewrite Halpha.
  rewrite getScheme_from_scheme by exact Hs. simpl scheme_cons. cbv iota beta.
  rewrite (ToLower_scheme (String c scheme')) by (simpl; now rewrite Hsb).
  unfold Cut.
  rewrite IndexByte_none.
  2:{ simpl. apply (any_byte_none authority_byte); [apply authority_byte_facts | exact Ha]. }
  simpl. rewrite IndexByte_none.
  2:{ apply (any_byte_none authority_byte); [apply authority_byte_facts | exact Ha]. }
  unfold parseAuthority. rewrite LastIndexByte_none.
  2:{ apply (any_byte_none authority_byte); [apply authority_byte_facts | exact Ha]. }
  replace (String.prefix EmptyString (host +:+ String ":" digits)) with true
    by now destruct (host +:+ String ":" digits).
  rewrite drop_0, parseHost_authority by assumption. reflexivity.
Qed.

Lemma drop_S_append (a b : string) (c : ascii) :
  drop (S (String.length a)) (a +:+ String c b) = b.
Proof. induction a as [|x a IH]; str_simpl; [now destruct b | exact IH]. Qed.

Lemma SplitHostPort_canonical (host digits : string) :
  all_bytes host_byte host = true ->
  all_bytes is_digit digits = true ->
  SplitHostPort (host +:+ String ":" digits) = inl (host, digits).
Proof.
  intros Hh Hd. pose proof (authority_bytes host digits Hh Hd) as Ha.
  unfold SplitHostPort.
  rewrite LastIndexByte_append
    by (apply (any_byte_none is_digit); [apply digit_facts | exact Hd]).
  rewrite prefix_byte_none
    by (apply (any_byte_none authority_byte); [apply authority_byte_facts | exact Ha]).
  rewrite take_append, drop_0, drop_S_append.
  rewrite (any_byte_none host_byte (fun d => Ascii.eqb d ":") host)
    by (apply host_byte_facts || exact Hh).
  rewrite (any_byte_none authority_byte (fun d => Ascii.eqb d "[") _)
    by (apply authority_byte_facts || exact Ha).
  rewrite (any_byte_none authority_byte (fun d => Ascii.eqb d "]") _)
    by (apply authority_byte_facts || exact Ha).
  reflexivity.
Qed.

(** *** Decimal numbers *)

Lemma decimal_from_bounds (s : string) (n : Z) :
  all_bytes is_digit s = true -> 0 <= n ->
  n <= decimal_from n s < (n + 1) * 10 ^ Z.of_nat (String.length s).
Proof.
  revert n. induction s as [|c s IH]; intros n Hs Hn.
  - simpl. lia.
  - simpl in Hs. apply andb_prop in Hs as [Hc Hs].
    destruct (digit_facts c Hc) as (_ & _ & _ & _ & _ & _ & _ & _ & Hd).
    specialize (IH (n * 10 + (byte c - 48)) Hs ltac:(lia)).
    cbn [decimal_from String.length].
    rewrite Nat2Z.inj_succ, Z.pow_succ_r by lia. nia.
Qed.

Lemma Atoi_fast_loop_digits (s : string) (n : Z) :
  all_bytes is_digit s = true ->
  Atoi_fast_loop s n = Some (decimal_from n s).
Proof.
  revert n. induction s as [|c s IH]; intros n Hs; simpl; [reflexivity|].
  simpl in Hs. apply andb_prop in Hs as [Hc Hs]. rewrite Hc. simpl. now apply IH.
Qed.

Lemma ParseUint_loop_digits (s : string) (n : Z) :
  all_bytes is_digit s = true -> 0 <= n < 2 ^ 64 ->
  ParseUint_loop s n =
  if decimal_from n s <? 2 ^ 64 then inl (decimal_from n s) else inr ErrRange.
Proof.
  revert n. induction s as [|c s IH]; intros n Hs Hn.
  - simpl. destruct (Z.ltb_spec n (2 ^ 64)); [reflexivity | lia].
  - simpl in Hs. apply andb_prop in Hs as [Hc Hs].
    destruct (digit_facts c Hc) as (_ & _ & _ & _ & _ & _ & _ & _ & Hd).
    pose proof (decimal_from_bounds s (n * 10 + (byte c - 48)) Hs ltac:(lia)) as Hb.
    cbn [ParseUint_loop decimal_from]. rewrite Hc. cbn [negb].
    change ((2 ^ 64 - 1) / 10 + 1) with 1844674407370955162.
    destruct (Z.geb_spec n 1844674407370955162) as [Hcut|Hcut].
    { destruct (Z.ltb_spec (decimal_from (n * 10 + (byte c - 48)) s) (2 ^ 64)); [lia | reflexivity]. }
    destruct (Z.lt_ge_cases (n * 10 + (byte c - 48)) (2 ^ 64)) as [Hfit|Hover].
    + rewrite Z.mod_small by lia.
      destruct (Z.ltb_spec (n * 10 + (byte c - 48)) (n * 10)); [lia|].
      apply IH; [exact Hs | lia].
    + replace ((n * 10 + (byte c - 48)) mod 2 ^ 64)
        with (n * 10 + (byte c - 48) - 2 ^ 64).
      2:{ apply Z.mod_unique with (q := 1); lia. }
      destruct (Z.ltb_spec (n * 10 + (byte c - 48) - 2 ^ 64) (n * 10)); [|lia].
      destruct (Z.ltb_spec (decimal_from (n * 10 + (byte c - 48)) s) (2 ^ 64)); [lia | reflexivity].
Qed.

(** [Atoi] on a string of digits: its decimal value when that fits an
    [int], an error otherwise. *)
Lemma Atoi_digits (c : ascii) (s : string) :
  all_bytes is_digit (String c s) = true ->
  Atoi (String c s) =
  if decimal (String c s) <? 2 ^ 63 then inl (decimal (String c s))
  else inr (rangeError "Atoi" (String c s)).
Proof.
  intros Hs. pose proof Hs as Hcs. simpl in Hcs. apply andb_prop in Hcs as [Hc Hs'].
  destruct (digit_facts c Hc) as (_ & _ & _ & _ & _ & _ & Hminus & Hplus & _).
  pose proof (decimal_from_bounds (String c s) 0 Hs ltac:(lia)) as Hb.
  fold (decimal (String c s)) in Hb.
  unfold Atoi.
  destruct ((0 <? String.length (String c s))%nat && (String.length (String c s) <? 19)%nat)
    eqn:Hlen.
  - rewrite Hminus, Hplus. cbn [orb andb].
    rewrite Atoi_fast_loop_digits by exact Hs. fold (decimal (String c s)).
    apply andb_prop in Hlen as [_ Hlt]. apply Nat.ltb_lt in Hlt.
    assert (10 ^ Z.of_nat (String.length (String c s)) <= 10 ^ 18)
      by (apply Z.pow_le_mono_r; lia).
    destruct (Z.ltb_spec (decimal (String c s)) (2 ^ 63)); [reflexivity | lia].
  - unfold ParseInt. rewrite Hminus, Hplus. cbn [orb andb negb].
    unfold ParseUint. rewrite ParseUint_loop_digits by (assumption || lia).
    fold (decimal (String c s)).
    destruct (Z.ltb_spec (decimal (String c s)) (2 ^ 64)) as [H64|H64].
    + destruct (Z.geb_spec (decimal (String c s)) (2 ^ 63)) as [H63|H63];
        destruct (Z.ltb_spec (decimal (String c s)) (2 ^ 63)); try lia; reflexivity.
    + destruct (Z.ltb_spec (decimal (String c s)) (2 ^ 63)); [lia | reflexivity].
Qed.

Lemma byte_digit_byte (d : Z) : 0 <= d <= 9 -> byte (digit_byte d) - 48 = d.
Proof.
  intros Hd.
  assert (d = 0 \/ d = 1 \/ d = 2 \/ d = 3 \/ d = 4 \/ d = 5 \/ d = 6 \/ d = 7
          \/ d = 8 \/ d = 9) as Hcases by lia.
  repeat (destruct Hcases as [->|Hcases]; [reflexivity|]). now subst.
Qed.

Lemma is_digit_digit_byte (d : Z) : 0 <= d <= 9 -> is_digit (digit_byte d) = true.
Proof.
  intros Hd.
  assert (d = 0 \/ d = 1 \/ d = 2 \/ d = 3 \/ d = 4 \/ d = 5 \/ d = 6 \/ d = 7
          \/ d = 8 \/ d = 9) as Hcases by lia.
  repeat (destruct Hcases as [->|Hcases]; [reflexivity|]). now subst.
Qed.

Lemma formatBits_digits (fuel : nat) (u : Z) (buf : string) :
  0 <= u -> all_bytes is_digit buf = true ->
  all_bytes is_digit (formatBits fuel u buf) = true.
Proof.
  revert u buf. induction fuel as [|fuel IH]; intros u buf Hu Hbuf; simpl; [exact Hbuf|].
  destruct (Z.ltb_spec u 10).
  - simpl. now rewrite is_digit_digit_byte by lia.
  - apply IH; [apply Z.div_pos; lia|].
    simpl. rewrite is_digit_digit_byte; [exact Hbuf|].
    pose proof (Z.mod_pos_bound u 10). lia.
Qed.

Lemma formatBits_decimal (fuel : nat) (u : Z) (buf : string) :
  0 <= u < 10 ^ Z.of_nat fuel ->
  decimal (formatBits fuel u buf) = decimal_from u buf.
Proof.
  revert u buf. induction fuel as [|fuel IH]; intros u buf Hu.
  - simpl in *. replace u with 0 by lia. reflexivity.
  - rewrite Nat2Z.inj_succ, Z.pow_succ_r in Hu by lia. simpl.
    destruct (Z.ltb_spec u 10).
    + unfold decimal. simpl. now rewrite byte_digit_byte by lia.
    + rewrite IH by (split; [apply Z.div_pos; lia | apply Z.div_lt_upper_bound; lia]).
      simpl. rewrite byte_digit_byte by (pose proof (Z.mod_pos_bound u 10); lia).
      f_equal. pose proof (Z.div_mod u 10). lia.
Qed.

Lemma formatBits_cons (fuel : nat) (u : Z) (buf : string) :
  (fuel <> 0)%nat \/ buf <> EmptyString ->
  exists c s, formatBits fuel u buf = String c s.
Proof.
  revert u buf. induction fuel as [|fuel IH]; intros u buf Hne; simpl.
  - destruct buf; [destruct Hne; congruence | eauto].
  - destruct (u <? 10); [eauto|]. apply IH. right. discriminate.
Qed.

(** What [FormatUint] writes, [Atoi] reads back. *)
Lemma Atoi_FormatUint (n : Z) :
  0 <= n < 2 ^ 63 -> Atoi (FormatUint n) = inl n.
Proof.
  intros Hn. unfold FormatUint.
  destruct (formatBits_cons 20 n EmptyString) as (c & s & Hcs); [left; discriminate|].
  pose proof (formatBits_digits 20 n EmptyString ltac:(lia) eq_refl) as Hd.
  pose proof (formatBits_decimal 20 n EmptyString ltac:(simpl; lia)) as Hv.
  rewrite Hcs in *. rewrite Atoi_digits by exact Hd. rewrite Hv. simpl.
  destruct (Z.ltb_spec n (2 ^ 63)); [reflexivity | lia].
Qed.

(** *** The port of a parsed host *)

Lemma string_strong_ind (P : string -> Prop) :
  (forall s, (forall t, (String.length t < String.length s)%nat -> P t) -> P s) ->
  forall s, P s.
Proof.
  intros Hstep s. remember (String.length s) as n eqn:Hn.
  revert s Hn. induction n as [n IH] using lt_wf_ind.
  intros s ->. apply Hstep. intros t Ht. now apply (IH (String.length t)).
Qed.

Lemma unhex_range (c : ascii) : 0 <= unhex c <= 15.
Proof. each_byte c. Qed.

Lemma byte_ascii_of_N (n : Z) :
  0 <= n < 256 -> byte (ascii_of_N (Z.to_N n)) = n.
Proof.
  intros Hn. unfold byte. rewrite N_ascii_embedding by lia. lia.
Qed.

(** A byte decoded in a host is no colon: it is the percent sign or lies
    outside ASCII. *)
Lemma host_escape_no_colon (a b : ascii) :
  (unhex a <? 8)
  && negb (if Ascii.eqb a "2" then if Ascii.eqb b "5" then true else false else false)
    = false ->
  Ascii.eqb (ascii_of_N (Z.to_N (unhex a * 16 + unhex b))) ":" = false.
Proof.
  intros Hesc. apply Ascii.eqb_neq. intros Hv.
  pose proof (unhex_range a) as Ha. pose proof (unhex_range b) as Hb.
  assert (Hbyte : unhex a * 16 + unhex b = 58).
  { rewrite <- (byte_ascii_of_N (unhex a * 16 + unhex b)) by lia. now rewrite Hv. }
  apply andb_false_iff in Hesc as [Hge|Heq].
  - apply Z.ltb_ge in Hge. lia.
  - destruct (Ascii.eqb_spec a "2") as [Ea|]; [|discriminate].
    destruct (Ascii.eqb_spec b "5") as [Eb|]; [|discriminate].
    rewrite Ea, Eb in Hbyte. vm_compute in Hbyte. discriminate.
Qed.

(** Unescaping a host adds no colon. *)
Lemma unescape_host_no_colon (s t : string) :
  unescape s encodeHost = inl t ->
  any_byte (fun d => Ascii.eqb d ":") s = false ->
  any_byte (fun d => Ascii.eqb d ":") t = false.
Proof.
  revert t. induction s as [s IH] using string_strong_ind. intros t.
  destruct s as [|c rest]; [simpl; intros [= <-]; reflexivity|].
  destruct (Ascii.eqb_spec c "%") as [->|Hpct].
  - destruct rest as [|a [|b rest']]; try discriminate. simpl.
    destruct (negb (ishex a && ishex b)); [discriminate|].
    match goal with |- context [if ?g then inr _ else _] =>
      destruct g eqn:Hesc; [discriminate|] end.
    destruct (unescape rest' encodeHost) as [t'|] eqn:Hrest; [|discriminate].
    intros [= <-] Hs. apply orb_false_elim in Hs as [_ Hs].
    apply orb_false_elim in Hs as [_ Hs].
    simpl. rewrite (host_escape_no_colon a b Hesc). simpl.
    apply (IH rest'); [simpl; lia | exact Hrest | exact Hs].
  - apply Ascii.eqb_neq in Hpct. simpl. rewrite Hpct.
    match goal with |- context [if ?g then inr _ else _] =>
      destruct g; [discriminate|] end.
    destruct (unescape rest encodeHost) as [t'|] eqn:Hrest; [|discriminate].
    intros [= <-] Hs. apply orb_false_elim in Hs as [Hc Hs].
    simpl. rewrite Hc. simpl.
    apply (IH rest); [simpl; lia | exact Hrest | exact Hs].
Qed.

(** An unescaping that succeeds splits before a byte that is no hexadecimal
    digit. *)
Lemma unescape_split (a b : string) (c : ascii) (mode : encoding) (t : string) :
  ishex c = false ->
  unescape (a +:+ String c b) mode = inl t ->
  exists ta tb,
    unescape a mode = inl ta /\ unescape (String c b) mode = inl tb /\ t = ta +:+ tb.
Proof.
  intros Hhex. revert t. induction a as [a IH] using string_strong_ind. intros t.
  destruct a as [|x a'].
  - rewrite append_nil_l. intros Ht. exists EmptyString, t. auto.
  - rewrite append_cons.
    destruct (Ascii.eqb_spec x "%") as [->|Hpct].
    + destruct a' as [|p [|q a'']].
      * rewrite append_nil_l. destruct b as [|b1 b2]; simpl; [discriminate|].
        rewrite Hhex. simpl. discriminate.
      * rewrite append_cons, append_nil_l. simpl.
        rewrite Hhex, andb_false_r. simpl. discriminate.
      * rewrite !append_cons. simpl.
        destruct (negb (ishex p && ishex q)); [discriminate|].
        match goal with |- context [if ?g then inr _ else _] =>
          destruct g; [discriminate|] end.
        match goal with |- context [if ?g then inr _ else _] =>
          destruct g; [discriminate|] end.
        destruct (unescape (a'' +:+ String c b) mode) as [t'|] eqn:Hrest; [|discriminate].
        intros [= <-].
        destruct (IH a'' ltac:(simpl; lia) t' Hrest) as (ta & tb & Hta & Htb & ->).
        rewrite Hta. eexists _, tb. split; [reflexivity|]. split; [exact Htb | reflexivity].
    + apply Ascii.eqb_neq in Hpct. simpl. rewrite Hpct.
      match goal with |- context [if ?g then inr _ else _] =>
        destruct g; [discriminate|] end.
      destruct (unescape (a' +:+ String c b) mode) as [t'|] eqn:Hrest; [|discriminate].
      intros [= <-].
      destruct (IH a' ltac:(simpl; lia) t' Hrest) as (ta & tb & Hta & Htb & ->).
      rewrite Hta. eexists _, tb. split; [reflexivity|]. split; [exact Htb | reflexivity].
Qed.

(** Unescaping keeps an opening bracket in front. *)
Lemma unescape_bracket (s t : string) (mode : encoding) :
  unescape (String "[" s) mode = inl t -> exists t', t = String "[" t'.
Proof.
  simpl.
  match goal with |- context [if ?g then inr _ else _] => destruct g; [discriminate|] end.
  destruct (unescape s mode); [|discriminate]. intros [= <-]. eauto.
Qed.

Lemma IndexByte_lt (s : string) (c : ascii) (i : nat) :
  IndexByte s c = Some i -> (i < String.length s)%nat.
Proof.
  revert i. induction s as [|d s IH]; intros i; simpl; [discriminate|].
  destruct (Ascii.eqb d c); [intros [= <-]; lia|].
  destruct (IndexByte s c) as [j|]; [|discriminate].
  intros [= <-]. specialize (IH j eq_refl). lia.
Qed.

Lemma drop_append_le (n : nat) (a b : string) :
  (n <= String.length a)%nat -> drop n (a +:+ b) = drop n a +:+ b.
Proof.
  revert a. induction n as [|n IH]; intros a Hn.
  - now rewrite !drop_0.
  - destruct a as [|x a]; simpl in Hn; [lia|].
    rewrite append_cons. simpl. apply IH. lia.
Qed.

Lemma drop_at_last (s : string) (c : ascii) (i : nat) :
  LastIndexByte s c = Some i -> drop i s = String c (drop (S i) s).
Proof.
  revert i. induction s as [|d s IH]; intros i; simpl; [discriminate|].
  destruct (LastIndexByte s c) as [j|].
  - intros [= <-]. simpl. now apply IH.
  - destruct (Ascii.eqb_spec d c) as [->|]; [|discriminate].
    intros [= <-]. now rewrite drop_0.
Qed.

(** The port [SplitHostPort] returns is what follows the last colon. *)
Lemma SplitHostPort_port (s host port : string) :
  SplitHostPort s = inl (host, port) ->
  exists i, LastIndexByte s ":" = Some i /\ port = drop (S i) s.
Proof.
  unfold SplitHostPort.
  destruct (LastIndexByte s ":") as [i|]; [|discriminate].
  intros Hs. exists i. split; [reflexivity|].
  repeat match type of Hs with
         | (if ?g then _ else _) = _ => destruct g
         | match ?g with _ => _ end = _ => destruct g
         end; try discriminate; now injection Hs.
Qed.

(** A host in brackets with nothing after the closing one has no port. *)
Lemma SplitHostPort_brackets (x : string) (y : string * string) :
  SplitHostPort (String "[" x +:+ "]") = inl y -> False.
Proof.
  unfold SplitHostPort.
  destruct (LastIndexByte (String "[" x +:+ "]") ":") as [i|]; [|discriminate].
  rewrite append_cons. cbn [String.prefix]. 
  destruct (ascii_dec "[" "[") as [_|Hne]; [|congruence].
  replace (String.prefix EmptyString (x +:+ "]")) with true by now destruct (x +:+ "]").
  rewrite <- append_cons.
  destruct (IndexByte (String "[" x +:+ "]") "]") as [e|] eqn:He; [|discriminate].
  pose proof (IndexByte_lt _ _ _ He) as Hlt. rewrite length_append in *. simpl in Hlt.
  destruct (Nat.eqb_spec (S e) (String.length (String "[" x) + String.length "]"));
    [discriminate|].
  assert (Hany : any_byte (fun c => Ascii.eqb c "]") (drop (S e) (String "[" x +:+ "]")) = true).
  { rewrite drop_append_le by (simpl in *; lia).
    rewrite any_byte_append. simpl. apply orb_true_r. }
  rewrite Hany.
  repeat match goal with
         | |- (if ?g then _ else _) = _ -> _ => destruct g
         end; discriminate.
Qed.

(** After a string that ends in a colon and digits, the port is the digits. *)
Lemma LastIndexByte_port (a digits : string) (i : nat) :
  all_bytes is_digit digits = true ->
  LastIndexByte (a +:+ String ":" digits) ":" = Some i ->
  drop (S i) (a +:+ String ":" digits) = digits.
Proof.
  intros Hd. rewrite LastIndexByte_append
    by (apply (any_byte_none is_digit); [apply digit_facts | exact Hd]).
  intros [= <-]. apply drop_S_append.
Qed.

Lemma validOptionalPort_inv (colonPort : string) :
  validOptionalPort colonPort = true ->
  colonPort = EmptyString \/
  exists digits, colonPort = String ":" digits /\ all_bytes is_digit digits = true.
Proof.
  destruct colonPort as [|c digits]; [auto|]. simpl.
  intros [Hc Hd]%andb_prop. apply Ascii.eqb_eq in Hc as ->. eauto.
Qed.

Lemma unescape_port (digits : string) (c : ascii) (mode : encoding) :
  Ascii.eqb c ":" || Ascii.eqb c "]" = true ->
  all_bytes is_digit digits = true ->
  unescape (String c digits) mode = inl (String c digits).
Proof.
  intros Hc Hd. apply unescape_plain. simpl. apply andb_true_intro. split.
  - apply orb_prop in Hc as [->%Ascii.eqb_eq | ->%Ascii.eqb_eq]; reflexivity.
  - apply (all_bytes_impl is_digit); [|exact Hd].
    intros d Hdig. destruct (digit_facts d Hdig) as (_ & -> & _ & _ & -> & _).
    now rewrite andb_false_r.
Qed.

Lemma prefix_byte_inv (c : ascii) (s : string) :
  String.prefix (String c EmptyString) s = true -> exists s', s = String c s'.
Proof.
  destruct s as [|d s]; simpl; [discriminate|].
  destruct (ascii_dec c d) as [->|]; [eauto | discriminate].
Qed.

Lemma LastIndexByte_none_inv (s : string) (c : ascii) :
  LastIndexByte s c = None -> any_byte (fun d => Ascii.eqb d c) s = false.
Proof.
  induction s as [|d s IH]; simpl; [reflexivity|].
  destruct (LastIndexByte s c); [discriminate|].
  destruct (Ascii.eqb d c); [discriminate|]. intros _. now apply IH.
Qed.

Lemma unescape_colonPort (colonPort : string) (mode : encoding) :
  validOptionalPort colonPort = true ->
  unescape (String "]" colonPort) mode = inl (String "]" colonPort).
Proof.
  intros [->|(digits & -> & Hd)]%validOptionalPort_inv.
  - now destruct mode.
  - apply unescape_plain. simpl.
    apply (all_bytes_impl is_digit); [|exact Hd].
    intros d Hdig. destruct (digit_facts d Hdig) as (_ & -> & _ & _ & -> & _).
    now rewrite andb_false_r.
Qed.

Lemma Index_after_bracket (s : string) (zone : nat) :
  Index (String "[" s) "%25" = Some zone -> exists z, zone = S z.
Proof.
  cbn [Index String.prefix].
  destruct (ascii_dec "%" "[") as [Heq|_]; [discriminate Heq|].
  destruct (Index s "%25"); simpl; intros [= <-]; eauto.
Qed.

(** A host in brackets that [parseHost] accepts: brackets around something,
    then the optional port. *)
Lemma parseHost_brackets (h' hst : string) :
  parseHost (String "[" h') = inl hst ->
  exists x colonPort,
    hst = String "[" x +:+ String "]" colonPort /\
    validOptionalPort colonPort = true.
Proof.
  unfold parseHost. cbn [String.prefix].
  destruct (ascii_dec "[" "[") as [_|]; [|congruence].
  replace (String.prefix EmptyString h') with true by now destruct h'.
  destruct (LastIndexByte (String "[" h') "]") as [j|] eqn:Hj; [|discriminate].
  destruct (validOptionalPort (drop (S j) (String "[" h'))) eqn:Hvalid; [|discriminate].
  cbn [negb].
  pose proof (drop_at_last _ _ _ Hj) as Hdrop.
  destruct (LastIndexByte_split _ _ _ Hj) as [Hsplit _].
  destruct j as [|j].
  { simpl in Hj. destruct (LastIndexByte h' "]"); discriminate. }
  set (colonPort := drop (S (S j)) (String "[" h')) in *.
  assert (Hfront : forall t, (exists t', t = String "[" t') ->
            forall t2, exists x, t +:+ t2 +:+ String "]" colonPort
                      = String "[" x +:+ String "]" colonPort).
  { intros t [t' ->] t2. exists (t' +:+ t2).
    now rewrite !append_cons, append_assoc. }
  destruct (Index (take (S j) (String "[" h')) "%25") as [zone|] eqn:Hzone.
  - destruct (unescape (take zone (String "[" h')) encodeHost) as [host1|] eqn:H1; [|discriminate].
    destruct (unescape (drop zone (take (S j) (String "[" h'))) encodeZone) as [host2|];
      [|discriminate].
    rewrite Hdrop, unescape_colonPort by exact Hvalid.
    intros [= <-].
    simpl in Hzone. apply Index_after_bracket in Hzone as [z ->].
    cbn [take] in H1. apply unescape_bracket in H1.
    destruct (Hfront host1 H1 host2) as [x Hx]. exists x, colonPort. auto.
  - intros Hu. rewrite Hsplit in Hu.
    apply unescape_split in Hu as (ta & tb & Hta & Htb & ->); [|reflexivity].
    rewrite unescape_colonPort in Htb by exact Hvalid. injection Htb as <-.
    cbn [take] in Hta. apply unescape_bracket in Hta.
    destruct (Hfront ta Hta EmptyString) as [x Hx]. exists x, colonPort.
    rewrite append_nil_l in Hx. auto.
Qed.

(** The port of a host that [parseHost] accepted and [SplitHostPort] split is
    a string of digits. *)
Lemma parseHost_port (hraw hst host port : string) :
  parseHost hraw = inl hst ->
  SplitHostPort hst = inl (host, port) ->
  all_bytes is_digit port = true.
Proof.
  intros Hparse Hsplit.
  destruct (String.prefix "[" hraw) eqn:Hbr.
  - apply prefix_byte_inv in Hbr as [h' ->].
    apply parseHost_brackets in Hparse as (x & colonPort & -> & Hvalid).
    apply validOptionalPort_inv in Hvalid as [->|(digits & -> & Hd)].
    + now apply SplitHostPort_brackets in Hsplit.
    + apply SplitHostPort_port in Hsplit as (i & Hi & ->).
      replace (String "[" x +:+ String "]" (String ":" digits))
        with ((String "[" x +:+ "]") +:+ String ":" digits) in *
        by now rewrite append_assoc.
      now rewrite (LastIndexByte_port _ digits i Hd Hi).
  - apply SplitHostPort_port in Hsplit as (i & Hi & ->).
    unfold parseHost in Hparse. rewrite Hbr in Hparse.
    destruct (LastIndexByte hraw ":") as [j|] eqn:Hj.
    + pose proof (drop_at_last _ _ _ Hj) as Hdrop.
      destruct (LastIndexByte_split _ _ _ Hj) as [Hraw _].
      destruct (validOptionalPort (drop j hraw)) eqn:Hvalid; [|discriminate].
      rewrite Hdrop in Hvalid. simpl in Hvalid. cbn [negb] in Hparse.
      rewrite Hraw in Hparse.
      apply unescape_split in Hparse as (ta & tb & Hta & Htb & ->); [|reflexivity].
      rewrite unescape_port in Htb by (reflexivity || exact Hvalid).
      injection Htb as <-.
      now rewrite (LastIndexByte_port _ _ i Hvalid Hi).
    + apply LastIndexByte_none_inv in Hj.
      pose proof (unescape_host_no_colon _ _ Hparse Hj) as Hno.
      apply LastIndexByte_none in Hno. congruence.
Qed.

Lemma parseAuthority_parseHost (authority host : string) :
  parseAuthority authority = inl host ->
  exists hraw, parseHost hraw = inl host.
Proof.
  unfold parseAuthority.
  destruct (LastIndexByte authority "@") as [i|]; [|eauto].
  destruct (parseHost (drop (S i) authority)) as [host'|] eqn:Hh; [|discriminate].
  intros Hres. exists (drop (S i) authority). rewrite Hh. f_equal.
  destruct (negb (validUserinfo (take i authority))); [discriminate|].
  destruct (Cut (take i authority) ":") as [[username password] found].
  destruct (unescape username encodeUserPassword); [|discriminate].
  destruct (unescape password encodeUserPassword); [|discriminate].
  now injection Hres.
Qed.

(** The host of a parsed URL is empty or went through [parseHost]. *)
Lemma Parse_host (rawURL : string) (u : URL) :
  Parse rawURL = inl u ->
  Host u = EmptyString \/ exists hraw, parseHost hraw = inl (Host u).
Proof.
  unfold Parse. destruct (Cut rawURL "#") as [[raw frag] found].
  destruct (parse raw) as [url|] eqn:Hparse; [|discriminate].
  intros Hu.
  assert (url = u) as ->.
  { destruct (String.eqb frag EmptyString); [now injection Hu|].
    destruct (unescape frag encodeFragment); [now injection Hu | discriminate]. }
  clear Hu. unfold parse in Hparse.
  destruct (stringContainsCTLByte raw); [discriminate|].
  destruct (String.eqb raw "*"); [injection Hparse as <-; auto|].
  destruct (getScheme raw) as [[scheme rest]|]; [|discriminate].
  match type of Hparse with (if ?g then _ else _) = _ => destruct g end;
    [injection Hparse as <-; auto|].
  match type of Hparse with (if ?g then _ else _) = _ => destruct g end;
    [discriminate|].
  match type of Hparse with (if ?g then _ else _) = _ => destruct g end.
  - destruct (IndexByte (drop 2 (fst (fst (Cut rest "?")))) "/") as [i|].
    all: match type of Hparse with
         | match parseAuthority ?a with _ => _ end = _ =>
           destruct (parseAuthority a) as [host|] eqn:Hauth; [|discriminate]
         end.
    all: match type of Hparse with
         | match unescape ?a ?m with _ => _ end = _ =>
           destruct (unescape a m); [|discriminate]
         end.
    all: injection Hparse as <-; right; simpl;
      now apply parseAuthority_parseHost in Hauth.
  - destruct (unescape _ encodePath); [|discriminate].
    injection Hparse as <-. auto.
Qed.

End GoFacts.

(** ** The library the adapter is linked with *)

(** With Go's library, what the loops accept has a port of decimal digits:
    [Atoi] meets no sign, and the conversion to [uint64] changes nothing. *)
Lemma GoStd_port (endpoint : string) (u : URL) (host : string) (p : Z) :
  parse_endpoint endpoint = inl (u, host, p) ->
  exists port,
    Go.SplitHostPort (Host u) = inl (host, port) /\
    port <> EmptyString /\
    Go.all_bytes Go.is_digit port = true /\
    p = decimal port /\
    0 <= p < 2 ^ 63.
Proof.
  intros Hp. apply parse_endpoint_inl in Hp as (port & Hu & Hs & Ha).
  simpl in Hu, Hs, Ha. exists port.
  assert (Hd : Go.all_bytes Go.is_digit port = true).
  { destruct (GoFacts.Parse_host _ _ Hu) as [Hempty|[hraw Hraw]].
    - rewrite Hempty in Hs. discriminate.
    - exact (GoFacts.parseHost_port _ _ _ _ Hraw Hs). }
  destruct port as [|c s]; [discriminate|].
  rewrite GoFacts.Atoi_digits in Ha by exact Hd.
  pose proof (GoFacts.decimal_from_bounds (String c s) 0 Hd ltac:(lia)) as Hb.
  fold (decimal (String c s)) in Hb.
  destruct (Z.ltb_spec (decimal (String c s)) (2 ^ 63)); [|discriminate].
  injection Ha as <-. repeat split; try assumption; try discriminate; lia.
Qed.

(** With Go's library, an endpoint in the form [GetService] writes parses
    into its three parts. *)
Lemma GoStd_canonical (scheme host : string) (port : Z) :
  canonical_parts scheme host port ->
  parse_endpoint (Sprintf_endpoint scheme host port) =
  inl ({| Scheme := scheme; Host := host +:+ ":" +:+ FormatUint port |}, host, port).
Proof.
  intros ((c & scheme' & -> & Hc & Hs) & Hh & Hport).
  pose proof (GoFacts.formatBits_digits 20 port EmptyString ltac:(lia) eq_refl) as Hd.
  fold (FormatUint port) in Hd.
  unfold parse_endpoint, Sprintf_endpoint. simpl url_Parse.
  rewrite GoFacts.Parse_canonical by assumption.
  simpl net_SplitHostPort. cbn [Host].
  change (host +:+ ":" +:+ FormatUint port) with (host +:+ String ":" (FormatUint port)).
  rewrite GoFacts.SplitHostPort_canonical by assumption.
  simpl strconv_Atoi. rewrite GoFacts.Atoi_FormatUint by lia. reflexivity.
Qed.

Lemma Register_nonempty `{GoLib} (r : Registry) (si : ServiceInstance) (h : history) :
  Name si <> EmptyString ->
  Register r si h = Register_loop r si (Endpoints si) h.
Proof.
  intros Hname. unfold Register.
  destruct (String.eqb_spec (Name si) EmptyString); [contradiction | reflexivity].
Qed.

(** ** The claims of the specification *)

(** C1: for an instance with a non-empty name, the calls of Register are
    registrations, one for each endpoint it got through and in their order
    (all of them when it returns no error, which it does when the endpoints
    are well formed and the client accepts): IP and port of the parsed
    endpoint, the name joined by a dot to the scheme, the configured weight,
    enable, healthy and ephemeral set, the merged metadata, the configured
    cluster and group. Registering pay, v1, grpc://10.0.0.1:9000 with the
    default options calls with pay.grpc, 10.0.0.1, 9000, weight 100 and the
    metadata kind grpc, version v1. *)
Theorem Register_issues_registrations :
  (forall (L : GoLib) (r : Registry) (si : ServiceInstance) (h : history),
     Name si <> EmptyString ->
     exists params,
       snd (@Register L r si h) = h ++ map CallRegisterInstance params /\
       Forall2 (@registration_of L r si)
               (take (length params) (Endpoints si)) params /\
       (fst (@Register L r si h) = None ->
        length params = length (Endpoints si)) /\
       (Forall (@well_formed L) (Endpoints si) ->
        (forall h' p, snd (RegisterInstance (cli r) h' p) = None) ->
        fst (@Register L r si h) = None))
  /\
  (forall (c : INamingClient) (id : string) (h : history),
     exists p,
       snd (Register (New c [])
              {| ID := id; Name := "pay"; Version := "v1"; Metadata := ∅;
                 Endpoints := ["grpc://10.0.0.1:9000"] |} h)
       = h ++ [CallRegisterInstance p] /\
       reg_ServiceName p = "pay.grpc" /\
       reg_Ip p = "10.0.0.1" /\
       reg_Port p = 9000 /\
       reg_Weight p = 100%float /\
       reg_Metadata p !! "kind" = Some "grpc" /\
       reg_Metadata p !! "version" = Some "v1").
Proof.
  split.
  - intros L r si h Hname. rewrite Register_nonempty by exact Hname.
    destruct (Register_loop_calls r si (Endpoints si) h)
      as (params & Hh & Hall & _ & Hnone).
    exists params. repeat split; try assumption.
    intros Hwf Hacc. now apply Register_loop_accepted.
  - intros c id h.
    set (si := {| ID := id; Name := "pay"; Version := "v1"; Metadata := ∅;
                  Endpoints := ["grpc://10.0.0.1:9000"] |}).
    set (u := {| Scheme := "grpc"; Host := "10.0.0.1:9000" |}).
    exists (register_param (New c []) si u "10.0.0.1" 9000).
    split.
    + change (Register (New c []) si h)
        with (Register_loop (New c []) si ["grpc://10.0.0.1:9000"] h).
      cbn [Register_loop].
      change (parse_endpoint "grpc://10.0.0.1:9000")
        with (inl (u, "10.0.0.1", 9000) : result (URL * string * Z)).
      cbv beta iota zeta.
      destruct (RegisterInstance _ h _) as [ok [e|]]; reflexivity.
    + repeat split; try reflexivity;
        cbn [reg_Metadata register_param]; rewrite build_meta_lookup; reflexivity.
Qed.

Lemma Register_issues_registrations_witness :
  exists params,
    snd (Register (New fake_client [])
           {| ID := "1"; Name := "pay"; Version := "v1"; Metadata := ∅;
              Endpoints := ["grpc://10.0.0.1:9000"; "http://10.0.0.1:8000"] |} [])
    = map CallRegisterInstance params /\
    length params = 2%nat.
Proof.
  destruct (proj1 Register_issues_registrations GoStd (New fake_client [])
              {| ID := "1"; Name := "pay"; Version := "v1"; Metadata := ∅;
                 Endpoints := ["grpc://10.0.0.1:9000"; "http://10.0.0.1:8000"] |} []
              ltac:(discriminate))
    as (params & Hh & _ & Hlen & _).
  exists params. split; [exact Hh | apply Hlen; reflexivity].
Defined.

(** C2: the calls of Deregister are deregistrations, one for each endpoint
    it got through and in their order (all of them when it returns no
    error, which it does when the endpoints are well formed and the client
    accepts), each keyed by the name joined by a dot to the endpoint's
    scheme, the configured cluster and group, ephemeral set. For svc with
    grpc://h:1 and http://h:2 the calls name svc.grpc and svc.http. *)
Theorem Deregister_issues_deregistrations :
  (forall (L : GoLib) (r : Registry) (service : ServiceInstance) (h : history),
     exists params,
       snd (@Deregister L r service h) = h ++ map CallDeregisterInstance params /\
       Forall2 (@deregistration_of L r service)
               (take (length params) (Endpoints service)) params /\
       (fst (@Deregister L r service h) = None ->
        length params = length (Endpoints service)) /\
       (Forall (@well_formed L) (Endpoints service) ->
        (forall h' p, snd (DeregisterInstance (cli r) h' p) = None) ->
        fst (@Deregister L r service h) = None))
  /\
  (forall (r : Registry) (id version : string) (metadata : gmap string string)
          (h : history),
     (forall h' p, snd (DeregisterInstance (cli r) h' p) = None) ->
     Deregister r {| ID := id; Name := "svc"; Version := version;
                     Metadata := metadata;
                     Endpoints := ["grpc://h:1"; "http://h:2"] |} h
     = (None,
        h ++ [CallDeregisterInstance
                {| dereg_Ip := "h"; dereg_Port := 1;
                   dereg_ServiceName := "svc.grpc";
                   dereg_GroupName := group (opts r);
                   dereg_Cluster := cluster (opts r);
                   dereg_Ephemeral := true |};
              CallDeregisterInstance
                {| dereg_Ip := "h"; dereg_Port := 2;
                   dereg_ServiceName := "svc.http";
                   dereg_GroupName := group (opts r);
                   dereg_Cluster := cluster (opts r);
                   dereg_Ephemeral := true |}])).
Proof.
  split.
  - intros L r service h. unfold Deregister.
    destruct (Deregister_loop_calls r service (Endpoints service) h)
      as (params & Hh & Hall & _ & Hnone).
    exists params. repeat split; try assumption.
    intros Hwf Hacc. now apply Deregister_loop_accepted.
  - intros r id version metadata h Hacc.
    unfold Deregister. cbn [Endpoints Deregister_loop].
    change (parse_endpoint "grpc://h:1")
      with (inl ({| Scheme := "grpc"; Host := "h:1" |}, "h", 1) : result (URL * string * Z)).
    change (parse_endpoint "http://h:2")
      with (inl ({| Scheme := "http"; Host := "h:2" |}, "h", 2) : result (URL * string * Z)).
    cbv beta iota zeta.
    repeat match goal with
           | |- context [DeregisterInstance (cli r) ?h' ?p] =>
             let H := fresh in
             pose proof (Hacc h' p) as H;
             destruct (DeregisterInstance (cli r) h' p) as [? ?];
             simpl in H; subst
           end.
    rewrite <- app_assoc. reflexivity.
Qed.

Lemma Deregister_issues_deregistrations_witness :
  fst (Deregister (New fake_client [])
         {| ID := "1"; Name := "svc"; Version := "v1"; Metadata := ∅;
            Endpoints := ["grpc://h:1"; "http://h:2"] |} []) = None.
Proof.
  rewrite (proj2 Deregister_issues_deregistrations (New fake_client [])
             "1" "v1" ∅ [] ltac:(reflexivity)).
  reflexivity.
Defined.

(** C6: Register of an instance whose Name is empty fails with
    ErrServiceInstanceNameEmpty and calls the client not at all, whatever the
    endpoints, the version and the metadata are. *)
Theorem Register_empty_name (L : GoLib) (r : Registry) (id version : string)
    (metadata : gmap string string) (endpoints : list string) (h : history) :
  @Register L r {| ID := id; Name := EmptyString; Version := version;
                   Metadata := metadata; Endpoints := endpoints |} h
  = (Some ErrServiceInstanceNameEmpty, h).
Proof. reflexivity. Qed.

(** C10: Deregister does not look at the name. For an instance of empty
    name and well-formed endpoints it does not fail with the missing-name
    error (its only error is one of the client); its calls are
    deregistrations, one for each endpoint it got through, all of them when
    the client accepts, and each names a dot followed by the scheme. *)
Theorem Deregister_empty_name (L : GoLib) (r : Registry) (id version : string)
    (metadata : gmap string string) (endpoints : list string) (h : history) :
  let service := {| ID := id; Name := EmptyString; Version := version;
                    Metadata := metadata; Endpoints := endpoints |} in
  Forall (@well_formed L) endpoints ->
  fst (@Deregister L r service h) <> Some ErrServiceInstanceNameEmpty /\
  (fst (@Deregister L r service h) = None \/
   exists msg, fst (@Deregister L r service h) = Some (SdkError msg)) /\
  exists params,
    snd (@Deregister L r service h) = h ++ map CallDeregisterInstance params /\
    Forall2 (fun endpoint p =>
               @deregistration_of L r service endpoint p /\
               exists u, url_Parse endpoint = inl u /\
                         dereg_ServiceName p = "." +:+ Scheme u)
            (take (length params) endpoints) params /\
    ((forall h' p, snd (DeregisterInstance (cli r) h' p) = None) ->
     fst (@Deregister L r service h) = None /\ length params = length endpoints).
Proof.
  intros service Hwf. unfold Deregister. cbn [Endpoints service].
  assert (Herr : fst (Deregister_loop r service endpoints h) = None \/
                 exists msg, fst (Deregister_loop r service endpoints h) = Some (SdkError msg)).
  { destruct (fst (Deregister_loop r service endpoints h)) as [err|] eqn:Hres; [|auto].
    right. destruct (Deregister_loop_error r service endpoints h err Hwf Hres) as [msg ->].
    eauto. }
  split; [|split; [exact Herr|]].
  - destruct Herr as [->|[msg ->]]; discriminate.
  - destruct (Deregister_loop_calls r service endpoints h)
      as (params & Hh & Hall & _ & Hnone).
    exists params. split; [exact Hh|]. split.
    + eapply Forall2_impl; [exact Hall|].
      intros endpoint p Hd. split; [exact Hd|].
      destruct Hd as (u & host & port & n & Hu & _ & _ & _ & _ & Hname & _).
      exists u. split; [exact Hu | exact Hname].
    + intros Hacc.
      pose proof (Deregister_loop_accepted r service endpoints h Hwf Hacc) as Hok.
      split; [exact Hok | exact (Hnone Hok)].
Qed.

Lemma Deregister_empty_name_witness :
  fst (Deregister (New fake_client [])
         {| ID := "1"; Name := EmptyString; Version := "v1"; Metadata := ∅;
            Endpoints := ["grpc://h:1"] |} [])
  <> Some ErrServiceInstanceNameEmpty.
Proof.
  refine (proj1 (Deregister_empty_name GoStd (New fake_client []) "1" "v1" ∅
                   ["grpc://h:1"] [] _)).
  repeat constructor. eexists. vm_compute. reflexivity.
Defined.

(** The history after a run of the loop that returned no error: the
    registrations of all its endpoints. *)
Lemma Register_loop_done `{GoLib} (r : Registry) (si : ServiceInstance)
    (endpoints : list string) (h h1 : history) :
  Register_loop r si endpoints h = (None, h1) ->
  exists params,
    h1 = h ++ map CallRegisterInstance params /\
    Forall2 (registration_of r si) endpoints params.
Proof.
  intros Hrun.
  destruct (Register_loop_calls r si endpoints h) as (params & Hh & Hall & _ & Hnone).
  rewrite Hrun in Hh, Hnone. simpl in Hh, Hnone.
  exists params. split; [exact Hh|].
  rewrite (Hnone eq_refl), firstn_all in Hall. exact Hall.
Qed.

(** C3: GetService asks the client once, for the healthy instances of the
    service name under the configured group. Of every record returned it
    makes an instance with the record's ID and service name, the version
    the metadata holds (the empty string without one), the metadata, and
    the one endpoint kind://ip:port, the kind being the metadata's when it
    has one and the configured default kind otherwise. An error of the
    client is returned with no instance. *)
Theorem GetService_reconstructs (r : Registry) (serviceName : string) (h : history) :
  let q := {| sel_ServiceName := serviceName;
              sel_GroupName := group (opts r);
              sel_HealthyOnly := true |} in
  snd (GetService r serviceName h) = h ++ [CallSelectInstances q] /\
  (forall res, SelectInstances (cli r) h q = (res, None) ->
     exists items,
       fst (GetService r serviceName h) = (items, None) /\
       Forall2 (reconstructed_from r) res items) /\
  (forall res msg, SelectInstances (cli r) h q = (res, Some msg) ->
     fst (GetService r serviceName h) = ([], Some (SdkError msg))).
Proof.
  intros q. unfold GetService. fold q.
  destruct (SelectInstances (cli r) h q) as [res [e|]] eqn:Hsel; simpl.
  - split; [reflexivity|]. split; [discriminate|]. now intros res' msg [= _ <-].
  - split; [reflexivity|]. split; [|discriminate].
    intros res' [= <-]. rewrite fold_left_snoc_map. simpl.
    exists (map (service_instance_of r) res). split; [reflexivity|].
    clear Hsel. induction res as [|rec res IH]; simpl; constructor;
      [apply service_instance_of_reconstructed | exact IH].
Qed.

Lemma GetService_reconstructs_witness :
  let p := {| reg_Ip := "10.0.0.1"; reg_Port := 9000;
              reg_ServiceName := "pay.grpc"; reg_Weight := 100%float;
              reg_Enable := true; reg_Healthy := true; reg_Ephemeral := true;
              reg_Metadata := ∅; reg_ClusterName := "DEFAULT";
              reg_GroupName := DEFAULT_GROUP |} in
  exists items,
    fst (GetService (New fake_client []) "pay.grpc" [CallRegisterInstance p])
    = (items, None) /\
    Forall2 (reconstructed_from (New fake_client [])) [instance_of p] items.
Proof.
  intros p.
  apply (proj1 (proj2 (GetService_reconstructs (New fake_client []) "pay.grpc"
                         [CallRegisterInstance p])) [instance_of p]).
  vm_compute. reflexivity.
Defined.

Lemma registration_metadata `{GoLib} (r : Registry) (si : ServiceInstance)
    (endpoint : string) (p : RegisterInstanceParam) :
  registration_of r si endpoint p -> merged_metadata_of si endpoint p.
Proof.
  intros (u & host & port & n & Hu & _ & _ & _ & _ & _ & _ & _ & _ & _ & Hmeta & _).
  exists u. split; [exact Hu|]. split; [exact Hmeta|].
  assert (Hnone : forall k, Metadata si !! k = None ->
            reg_Metadata p !! k = tags (Scheme u) (Version si) !! k).
  { intros k Hk. now rewrite Hmeta, lookup_union, Hk, (left_id_L None union). }
  repeat split.
  - intros k v Hk. rewrite Hmeta, lookup_union, Hk. now rewrite (union_Some_l v).
  - exact Hnone.
  - intros Hk. now rewrite (Hnone _ Hk).
  - intros Hk. now rewrite (Hnone _ Hk).
Qed.

(** C8: for an instance with a non-empty name, the registrations Register
    issues correspond one to one, in order, to the endpoints it got through
    (all of them when it returns no error, which it does when the endpoints
    are well formed and the client accepts), and the metadata of the
    registration of an endpoint is the instance's metadata laid over the two
    tags kind, that endpoint's own scheme, and version, the instance's
    version: every entry of the instance's metadata is in it with the
    instance's value, kind and version included, and a key the instance's
    metadata lacks has the value of the tags. *)
Theorem Register_metadata (L : GoLib) (r : Registry) (si : ServiceInstance)
    (h : history) :
  Name si <> EmptyString ->
  exists params,
    snd (@Register L r si h) = h ++ map CallRegisterInstance params /\
    Forall2 (@merged_metadata_of L si)
            (take (length params) (Endpoints si)) params /\
    (fst (@Register L r si h) = None ->
     length params = length (Endpoints si)) /\
    (Forall (@well_formed L) (Endpoints si) ->
     (forall h' p, snd (RegisterInstance (cli r) h' p) = None) ->
     fst (@Register L r si h) = None).
Proof.
  intros Hname. rewrite Register_nonempty by exact Hname.
  destruct (Register_loop_calls r si (Endpoints si) h)
    as (params & Hh & Hall & _ & Hnone).
  exists params. split; [exact Hh|]. split; [|split; [exact Hnone|]].
  - eapply Forall2_impl; [exact Hall|].
    intros endpoint p Hreg. exact (registration_metadata r si endpoint p Hreg).
  - intros Hwf Hacc. now apply Register_loop_accepted.
Qed.

Lemma Register_metadata_witness :
  let si := {| ID := "1"; Name := "pay"; Version := "v1";
               Metadata := {[ "kind" := "custom"; "zone" := "eu" ]};
               Endpoints := ["grpc://h:1"; "http://h:2"] |} in
  exists params,
    snd (Register (New fake_client []) si []) = map CallRegisterInstance params /\
    Forall2 (merged_metadata_of si) ["grpc://h:1"; "http://h:2"] params.
Proof.
  intros si.
  destruct (Register_metadata GoStd (New fake_client []) si [] ltac:(discriminate))
    as (params & Hh & Hall & Hlen & _).
  exists params. split; [exact Hh|].
  rewrite (Hlen eq_refl) in Hall. exact Hall.
Defined.

(** The step of the registration loop at an endpoint, once the endpoints
    before it went through. *)
Lemma Register_at `{GoLib} (r : Registry) (si : ServiceInstance) (h h1 : history)
    (pre post : list string) (endpoint : string) :
  Name si <> EmptyString ->
  Endpoints si = pre ++ endpoint :: post ->
  Register_loop r si pre h = (None, h1) ->
  Register r si h = Register_loop r si (endpoint :: post) h1.
Proof.
  intros Hname Hends Hpre.
  rewrite Register_nonempty by exact Hname.
  now rewrite Hends, Register_loop_app, Hpre.
Qed.

(** C7: when the client refuses the registration of an endpoint, the
    endpoints before it having gone through, Register returns an error
    made of the client's message and that endpoint, and the history ends
    with the registrations of the endpoints before it and the refused one:
    nothing is issued for the endpoints after it, and no deregistration
    undoes the earlier registrations. *)
Theorem Register_client_failure (L : GoLib) (r : Registry) (si : ServiceInstance)
    (h h1 : history) (pre post : list string) (endpoint : string)
    (u : URL) (host : string) (p : Z) (ok : bool) (msg : string) :
  Name si <> EmptyString ->
  Endpoints si = pre ++ endpoint :: post ->
  @Register_loop L r si pre h = (None, h1) ->
  @parse_endpoint L endpoint = inl (u, host, p) ->
  RegisterInstance (cli r) h1 (register_param r si u host p) = (ok, Some msg) ->
  exists params,
    Forall2 (@registration_of L r si) pre params /\
    @Register L r si h =
      (Some (errorString ("RegisterInstance err: " +:+ msg +:+ ", " +:+ endpoint)),
       h ++ map CallRegisterInstance (params ++ [register_param r si u host p])).
Proof.
  intros Hname Hends Hpre Hparse Hfail.
  destruct (Register_loop_done r si pre h h1 Hpre) as (params & -> & Hall).
  exists params. split; [exact Hall|].
  rewrite (Register_at r si h _ pre post endpoint Hname Hends Hpre).
  cbn [Register_loop]. rewrite Hparse. cbv beta iota zeta. rewrite Hfail.
  now rewrite map_app, app_assoc.
Qed.

Lemma Register_client_failure_witness :
  let r := {| opts := opts (New fake_client []);
              cli := failing_client 1 "connection refused" |} in
  let si := {| ID := "1"; Name := "pay"; Version := "v1"; Metadata := ∅;
               Endpoints := ["grpc://h:1"; "http://h:2"; "ws://h:3"] |} in
  exists params,
    Forall2 (registration_of r si) ["grpc://h:1"] params /\
    Register r si [] =
      (Some (errorString "RegisterInstance err: connection refused, http://h:2"),
       map CallRegisterInstance
         (params ++ [register_param r si {| Scheme := "http"; Host := "h:2" |} "h" 2])).
Proof.
  intros r si.
  apply (Register_client_failure GoStd r si []
           [CallRegisterInstance
              (register_param r si {| Scheme := "grpc"; Host := "h:1" |} "h" 1)]
           ["grpc://h:1"] ["ws://h:3"]
           "http://h:2" {| Scheme := "http"; Host := "h:2" |} "h" 2 false
           "connection refused");
    [discriminate | reflexivity | reflexivity | reflexivity | reflexivity].
Defined.

(** C5: at an endpoint, the endpoints before it having gone through,
    Register returns the error of url.Parse, else the error of
    net.SplitHostPort on the host, else the error of strconv.Atoi on the
    port, and in these three cases the history is the one the endpoints
    before it left: no call is issued for the endpoint. Otherwise the next
    call registers the port Atoi returned, converted to uint64.
    With Go's library, an endpoint grpc://hostonly fails with the missing
    port error of the split and no call; and a port that is accepted is a
    non-empty string of decimal digits, the port registered being its value,
    which the conversion leaves unchanged. *)
Theorem Register_validation :
  (forall (L : GoLib) (r : Registry) (si : ServiceInstance) (h h1 : history)
          (pre post : list string) (endpoint : string),
     Name si <> EmptyString ->
     Endpoints si = pre ++ endpoint :: post ->
     @Register_loop L r si pre h = (None, h1) ->
     (exists params, h1 = h ++ map CallRegisterInstance params /\
                     Forall2 (@registration_of L r si) pre params) /\
     (forall err, url_Parse endpoint = inr err ->
        @Register L r si h = (Some err, h1)) /\
     (forall u err,
        url_Parse endpoint = inl u ->
        net_SplitHostPort (Host u) = inr err ->
        @Register L r si h = (Some err, h1)) /\
     (forall u host port err,
        url_Parse endpoint = inl u ->
        net_SplitHostPort (Host u) = inl (host, port) ->
        strconv_Atoi port = inr err ->
        @Register L r si h = (Some err, h1)) /\
     (forall u host port p,
        url_Parse endpoint = inl u ->
        net_SplitHostPort (Host u) = inl (host, port) ->
        strconv_Atoi port = inl p ->
        exists param rest,
          snd (@Register L r si h) = h1 ++ CallRegisterInstance param :: rest /\
          reg_Ip param = host /\ reg_Port param = uint64 p))
  /\
  (forall (r : Registry) (id version : string) (c : ascii) (name : string)
          (metadata : gmap string string) (post : list string) (h : history),
     Register r {| ID := id; Name := String c name; Version := version;
                   Metadata := metadata;
                   Endpoints := "grpc://hostonly" :: post |} h
     = (Some (AddrError "missing port in address" "hostonly"), h))
  /\
  (forall (endpoint : string) (u : URL) (host : string) (p : Z),
     @parse_endpoint GoStd endpoint = inl (u, host, p) ->
     exists port,
       Go.SplitHostPort (Host u) = inl (host, port) /\
       port <> EmptyString /\
       Go.all_bytes Go.is_digit port = true /\
       p = decimal port /\
       uint64 p = p).
Proof.
  split; [|split].
  - intros L r si h h1 pre post endpoint Hname Hends Hpre.
    split; [exact (Register_loop_done r si pre h h1 Hpre)|].
    rewrite (Register_at r si h h1 pre post endpoint Hname Hends Hpre).
    cbn [Register_loop]. unfold parse_endpoint.
    repeat split.
    + intros err ->. reflexivity.
    + intros u err -> ->. reflexivity.
    + intros u host port err -> -> ->. reflexivity.
    + intros u host port p -> -> ->. cbv beta iota zeta.
      exists (register_param r si u host p).
      destruct (RegisterInstance (cli r) h1 (register_param r si u host p)) as [ok [e|]].
      * exists []. simpl. auto.
      * destruct (Register_loop_calls r si post
                    (h1 ++ [CallRegisterInstance (register_param r si u host p)]))
          as (params & Hh & _).
        exists (map CallRegisterInstance params). rewrite Hh, <- app_assoc. simpl. auto.
  - intros r id version c name metadata post h. reflexivity.
  - intros endpoint u host p Hp.
    destruct (GoStd_port endpoint u host p Hp) as (port & Hs & Hne & Hd & Hv & Hrange).
    exists port. repeat split; try assumption.
    unfold uint64. apply Z.mod_small. lia.
Qed.

Lemma Register_validation_witness :
  exists port,
    Go.SplitHostPort "10.0.0.1:9000" = inl ("10.0.0.1", port) /\
    9000 = decimal port /\ uint64 9000 = 9000.
Proof.
  destruct (proj2 (proj2 Register_validation) "grpc://10.0.0.1:9000"
              {| Scheme := "grpc"; Host := "10.0.0.1:9000" |} "10.0.0.1" 9000 eq_refl)
    as (port & Hs & _ & _ & Hv & Hu).
  exists port. auto.
Defined.

(** ** The round trip through the fake client *)

Lemma store_of_snoc (h : history) (c : Call) :
  store_of (h ++ [c]) = store_step (store_of h) c.
Proof. unfold store_of. now rewrite fold_left_app. Qed.

Lemma store_step_register (st : list RegisterInstanceParam)
    (p q : RegisterInstanceParam) :
  In p (store_step st (CallRegisterInstance q)) <->
  p = q \/ (In p st /\ same_instance q p = false).
Proof.
  simpl. rewrite in_app_iff, filter_In. simpl.
  rewrite negb_true_iff. intuition congruence.
Qed.

(** Two registrations of one instance that the naming service takes for the
    same record are the same registration. *)
Lemma registration_same `{GoLib} (r : Registry) (si : ServiceInstance)
    (e1 e2 : string) (p q : RegisterInstanceParam) :
  registration_of r si e1 p -> registration_of r si e2 q ->
  same_instance q p = true -> p = q.
Proof.
  intros (u1 & host1 & port1 & n1 & _ & _ & _ & Hip1 & Hport1 & Hname1 & Hw1 & He1
          & Hh1 & Hep1 & Hm1 & Hc1 & Hg1)
         (u2 & host2 & port2 & n2 & _ & _ & _ & Hip2 & Hport2 & Hname2 & Hw2 & He2
          & Hh2 & Hep2 & Hm2 & Hc2 & Hg2) Hsame.
  unfold same_instance in Hsame.
  repeat (apply andb_prop in Hsame as [Hsame ?]).
  repeat match goal with
         | H : String.eqb _ _ = true |- _ => apply String.eqb_eq in H
         | H : (_ =? _) = true |- _ => apply Z.eqb_eq in H
         end.
  assert (Hscheme : Scheme u1 = Scheme u2).
  { rewrite Hname1, Hname2 in Hsame.
    apply (inj (String.app (Name si))) in Hsame. now injection Hsame. }
  assert (Hmeta : reg_Metadata p = reg_Metadata q).
  { now rewrite Hm1, Hm2, Hscheme. }
  destruct p, q; simpl in *; congruence.
Qed.

Lemma Forall2_In_r {A B : Type} (R : A -> B -> Prop) (l : list A) (k : list B) (y : B) :
  Forall2 R l k -> In y k -> exists x, In x l /\ R x y.
Proof.
  induction 1 as [|x y' l k HR _ IH]; simpl; [contradiction|].
  intros [->|Hy]; [eauto|]. destruct (IH Hy) as (x' & Hx' & HR'). eauto.
Qed.

Lemma Forall2_In_l {A B : Type} (R : A -> B -> Prop) (l : list A) (k : list B) (x : A) :
  Forall2 R l k -> In x l -> exists y, In y k /\ R x y.
Proof.
  induction 1 as [|x' y l k HR _ IH]; simpl; [contradiction|].
  intros [->|Hx]; [eauto|]. destruct (IH Hx) as (y' & Hy' & HR'). eauto.
Qed.

(** On a fresh naming service, the records after the registrations of one
    instance are those registrations. *)
Lemma store_of_registrations `{GoLib} (r : Registry) (si : ServiceInstance)
    (endpoints : list string) (params : list RegisterInstanceParam) :
  Forall2 (registration_of r si) endpoints params ->
  forall p, In p (store_of (map CallRegisterInstance params)) <-> In p params.
Proof.
  intros Hall.
  assert (Hreg : forall q, In q params -> exists e, registration_of r si e q).
  { intros q Hq. destruct (Forall2_In_r _ _ _ _ Hall Hq) as (e & _ & He). eauto. }
  clear Hall. induction params as [|q params IH] using rev_ind; intros p.
  - reflexivity.
  - rewrite map_app. simpl map. rewrite store_of_snoc, store_step_register.
    rewrite IH by (intros q' Hq'; apply Hreg, in_app_iff; now left).
    rewrite in_app_iff. simpl. split.
    + intros [->|[Hp _]]; auto.
    + intros [Hp|[->|[]]]; [|now left].
      destruct (same_instance q p) eqn:Hsame; [|now right].
      left.
      destruct (Hreg p ltac:(apply in_app_iff; now left)) as [e1 H1].
      destruct (Hreg q ltac:(apply in_app_iff; right; now left)) as [e2 H2].
      exact (registration_same r si e1 e2 p q H1 H2 Hsame).
Qed.

(** What [GetService] returns from the fake client. *)
Lemma GetService_fake (o : options) (serviceName : string) (h : history) :
  fst (fst (GetService {| opts := o; cli := fake_client |} serviceName h)) =
  map (fun p => service_instance_of {| opts := o; cli := fake_client |} (instance_of p))
      (List.filter (selects {| sel_ServiceName := serviceName;
                               sel_GroupName := group o;
                               sel_HealthyOnly := true |}) (store_of h)).
Proof.
  unfold GetService. simpl. rewrite fold_left_snoc_map. simpl.
  now rewrite map_map.
Qed.

(** The endpoint of the instance that comes back for a registration, when
    the instance's metadata has no kind of its own. *)
Lemma roundtrip_endpoint `{GoLib} (r : Registry) (si : ServiceInstance)
    (endpoint : string) (p : RegisterInstanceParam) (scheme : string) :
  Metadata si !! "kind" = None ->
  registration_of r si endpoint p ->
  exists u host port n,
    url_Parse endpoint = inl u /\
    net_SplitHostPort (Host u) = inl (host, port) /\
    strconv_Atoi port = inl n /\
    Endpoints (service_instance_of r (instance_of p))
      = [Sprintf_endpoint (Scheme u) host (uint64 n)] /\
    (selects {| sel_ServiceName := Name si +:+ "." +:+ scheme;
                sel_GroupName := group (opts r);
                sel_HealthyOnly := true |} p = true <-> Scheme u = scheme).
Proof.
  intros Hkind (u & host & port & n & Hu & Hs & Ha & Hip & Hport & Hname & _ & Hen
                & Hhe & _ & Hmeta & _ & Hgroup).
  exists u, host, port, n. repeat split; try assumption.
  - unfold service_instance_of, instance_of. simpl.
    rewrite Hmeta, lookup_union, Hkind, (left_id_L None union), Hip, Hport.
    reflexivity.
  - unfold selects. simpl. rewrite Hname, Hgroup, Hen, Hhe, String.eqb_refl. simpl.
    rewrite !andb_true_r. intros Heq%String.eqb_eq.
    apply (inj (String.app (Name si))) in Heq. now injection Heq.
  - intros <-. unfold selects. simpl.
    rewrite Hname, Hgroup, Hen, Hhe, !String.eqb_refl. reflexivity.
Qed.

Lemma canonical_well_formed (endpoint : string) :
  canonical endpoint -> well_formed endpoint.
Proof.
  intros (scheme & host & port & Hparts & ->).
  eexists. exact (GoStd_canonical scheme host port Hparts).
Qed.

(** With Go's library, the instance that comes back for the registration of
    an endpoint in the form [GetService] writes has that endpoint. *)
Lemma canonical_roundtrip (r : Registry) (si : ServiceInstance) (endpoint : string)
    (p : RegisterInstanceParam) :
  Metadata si !! "kind" = None ->
  canonical endpoint ->
  registration_of r si endpoint p ->
  Endpoints (service_instance_of r (instance_of p)) = [endpoint] /\
  forall scheme u,
    Go.Parse endpoint = inl u ->
    (selects {| sel_ServiceName := Name si +:+ "." +:+ scheme;
                sel_GroupName := group (opts r);
                sel_HealthyOnly := true |} p = true <-> Scheme u = scheme).
Proof.
  intros Hkind (scheme & host & port & Hparts & ->) Hreg.
  pose proof (GoStd_canonical scheme host port Hparts) as Hcanon.
  destruct Hparts as (_ & _ & Hport).
  split.
  - destruct (roundtrip_endpoint r si _ p scheme Hkind Hreg)
      as (u & host' & port' & n & Hu & Hs & Ha & Hend & _).
    unfold parse_endpoint in Hcanon. rewrite Hu, Hs, Ha in Hcanon.
    injection Hcanon as -> -> ->. rewrite Hend. cbn [Scheme].
    unfold uint64. rewrite Z.mod_small by lia. reflexivity.
  - intros scheme' u Hu.
    destruct (roundtrip_endpoint r si _ p scheme' Hkind Hreg)
      as (u' & _ & _ & _ & Hu' & _ & _ & _ & Hsel).
    simpl in Hu'. rewrite Hu in Hu'. injection Hu' as <-. exact Hsel.
Qed.

(** C4, as amended: the round trip holds for endpoints in the form
    GetService writes and an instance whose metadata has no kind of its
    own. For a non-empty name, Register to a fresh fake client returns no
    error, and the instances GetService then returns for the name joined to
    a scheme have, as their endpoint, exactly the supplied endpoints of that
    scheme. *)
Theorem Register_GetService_roundtrip (o : options) (si : ServiceInstance) :
  Name si <> EmptyString ->
  Metadata si !! "kind" = None ->
  Forall canonical (Endpoints si) ->
  let r := {| opts := o; cli := fake_client |} in
  fst (Register r si []) = None /\
  forall scheme endpoint,
    (exists item,
       In item (fst (fst (GetService r (Name si +:+ "." +:+ scheme)
                                     (snd (Register r si [])))))
       /\ Endpoints item = [endpoint])
    <->
    (In endpoint (Endpoints si) /\
     exists u, Go.Parse endpoint = inl u /\ Scheme u = scheme).
Proof.
  intros Hname Hkind Hcanon r.
  rewrite Register_nonempty by exact Hname.
  assert (Hok : fst (Register_loop r si (Endpoints si) []) = None).
  { apply Register_loop_accepted; [|reflexivity].
    eapply Forall_impl; [exact Hcanon | exact canonical_well_formed]. }
  split; [exact Hok|].
  destruct (Register_loop r si (Endpoints si) []) as [res h1] eqn:Hrun.
  simpl in Hok. subst res.
  destruct (Register_loop_done r si _ _ _ Hrun) as (params & -> & Hall).
  rewrite List.Forall_forall in Hcanon.
  intros scheme endpoint. cbn [snd]. unfold r at 1. rewrite GetService_fake. fold r.
  rewrite app_nil_l. split.
  - intros (item & Hitem & Hend).
    apply in_map_iff in Hitem as (p & <- & Hp).
    apply filter_In in Hp as [Hp Hsel].
    apply (store_of_registrations r si _ _ Hall) in Hp.
    destruct (Forall2_In_r _ _ _ _ Hall Hp) as (e & He & Hreg).
    destruct (canonical_roundtrip r si e p Hkind (Hcanon e He) Hreg) as [Hback Hscheme].
    rewrite Hback in Hend. injection Hend as <-.
    split; [exact He|].
    destruct Hreg as (u & _ & _ & _ & Hu & _). simpl in Hu.
    exists u. split; [exact Hu|]. now apply (Hscheme scheme u Hu).
  - intros (He & u & Hu & Hsch).
    destruct (Forall2_In_l _ _ _ _ Hall He) as (p & Hp & Hreg).
    destruct (canonical_roundtrip r si endpoint p Hkind (Hcanon endpoint He) Hreg)
      as [Hback Hscheme].
    exists (service_instance_of r (instance_of p)). split; [|exact Hback].
    apply in_map_iff. exists p. split; [reflexivity|].
    apply filter_In. split.
    + now apply (store_of_registrations r si _ _ Hall).
    + now apply (Hscheme scheme u Hu).
Qed.

Lemma Register_GetService_roundtrip_witness :
  fst (Register {| opts := opts (New fake_client []); cli := fake_client |}
         {| ID := "1"; Name := "pay"; Version := "v1"; Metadata := ∅;
            Endpoints := ["grpc://10.0.0.1:9000"; "http://pay.local:80"] |} [])
  = None.
Proof.
  refine (proj1 (Register_GetService_roundtrip (opts (New fake_client []))
            {| ID := "1"; Name := "pay"; Version := "v1"; Metadata := ∅;
               Endpoints := ["grpc://10.0.0.1:9000"; "http://pay.local:80"] |}
            _ _ _)).
  - discriminate.
  - reflexivity.
  - repeat constructor.
    + exists "grpc", "10.0.0.1", 9000. split; [|reflexivity].
      split; [exists "g"%char, "rpc"; repeat split | split; [reflexivity | lia]].
    + exists "http", "pay.local", 80. split; [|reflexivity].
      split; [exists "h"%char, "ttp"; repeat split | split; [reflexivity | lia]].
Defined.

(** C4, as the specification words it, fails: the endpoint grpc://h:01 is
    well formed, its port is registered as the number 1, and it comes back
    as grpc://h:1. *)
Lemma roundtrip_as_stated_fails : ~ roundtrip_as_stated.
Proof.
  intros Hclaim.
  destruct (Hclaim (opts (New fake_client []))
              {| ID := "1"; Name := "svc"; Version := "v1"; Metadata := ∅;
                 Endpoints := ["grpc://h:01"] |}
              ltac:(discriminate)
              ltac:(repeat constructor; eexists; vm_compute; reflexivity)
              "grpc://h:01" ltac:(now left))
    as (serviceName & item & Hitem & Hend).
  rewrite GetService_fake in Hitem.
  change (store_of _)
    with [register_param {| opts := opts (New fake_client []); cli := fake_client |}
            {| ID := "1"; Name := "svc"; Version := "v1"; Metadata := ∅;
               Endpoints := ["grpc://h:01"] |}
            {| Scheme := "grpc"; Host := "h:01" |} "h" 1] in Hitem.
  cbn [List.filter] in Hitem.
  destruct (selects _ _); simpl in Hitem; [|contradiction].
  destruct Hitem as [<-|[]]. vm_compute in Hend. discriminate.
Qed.

(** What comes back for the endpoint of the counterexample. *)
Example roundtrip_leading_zero :
  map Endpoints
    (fst (fst (GetService (New fake_client []) "svc.grpc"
       (snd (Register (New fake_client [])
               {| ID := "1"; Name := "svc"; Version := "v1"; Metadata := ∅;
                  Endpoints := ["grpc://h:01"] |} [])))))
  = [["grpc://h:1"]].
Proof. vm_compute. reflexivity. Qed.

(** The other conditions of the amended round trip are needed as well: a
    scheme in upper case, a path and the brackets of an IPv6 host come back
    changed, and a kind in the instance's metadata replaces the scheme. *)
Example roundtrip_not_canonical :
  map Endpoints
    (fst (fst (GetService (New fake_client []) "svc.grpc"
       (snd (Register (New fake_client [])
               {| ID := "1"; Name := "svc"; Version := "v1"; Metadata := ∅;
                  Endpoints := ["GRPC://b:2"; "grpc://c:3/path"; "grpc://[::1]:9000"] |}
               [])))))
  = [["grpc://b:2"]; ["grpc://c:3"]; ["grpc://::1:9000"]].
Proof. vm_compute. reflexivity. Qed.

Example roundtrip_kind_override :
  map Endpoints
    (fst (fst (GetService (New fake_client []) "svc.grpc"
       (snd (Register (New fake_client [])
               {| ID := "1"; Name := "svc"; Version := "v1";
                  Metadata := {[ "kind" := "http" ]};
                  Endpoints := ["grpc://h:1"] |} [])))))
  = [["http://h:1"]].
Proof. vm_compute. reflexivity. Qed.

(** ** Further properties of the adapter *)

(** *** The options *)

Lemma fold_options (ss : list setting) (o : options) :
  fold_left (fun o option => option o) (map option_of ss) o =
  {| prefix := last_setting pick_prefix ss (prefix o);
     weight := last_setting pick_weight ss (weight o);
     cluster := last_setting pick_cluster ss (cluster o);
     group := last_setting pick_group ss (group o);
     kind := last_setting pick_kind ss (kind o) |}.
Proof.
  revert o. induction ss as [|s ss IH]; intros o; simpl.
  - now destruct o.
  - rewrite IH. now destruct s.
Qed.

(** X1: New applies the options in their order over the defaults, so every
    field of the configuration is what the last option for that field
    gives, and the default (/microservices, 100, DEFAULT, DEFAULT_GROUP,
    grpc) when the list has none; an option for one field leaves the others
    alone, and the client is kept. *)
Theorem New_options (c : INamingClient) (ss : list setting) :
  New c (map option_of ss) =
  {| opts := {| prefix := last_setting pick_prefix ss "/microservices";
                weight := last_setting pick_weight ss 100%float;
                cluster := last_setting pick_cluster ss "DEFAULT";
                group := last_setting pick_group ss DEFAULT_GROUP;
                kind := last_setting pick_kind ss "grpc" |};
     cli := c |}.
Proof. unfold New. now rewrite fold_options. Qed.

(** *** What the operations read *)

Lemma Register_loop_ext `{GoLib} (r r' : Registry) (si si' : ServiceInstance)
    (endpoints : list string) (h : history) :
  cli r = cli r' ->
  (forall u host p, register_param r si u host p = register_param r' si' u host p) ->
  Register_loop r si endpoints h = Register_loop r' si' endpoints h.
Proof.
  intros Hcli Hparam. revert h.
  induction endpoints as [|endpoint rest IH]; intros h; simpl; [reflexivity|].
  destruct (parse_endpoint endpoint) as [[[u host] p]|err]; [|reflexivity].
  rewrite <- Hcli, <- Hparam.
  destruct (RegisterInstance (cli r) h (register_param r si u host p)) as [ok [e|]];
    [reflexivity | apply IH].
Qed.

Lemma Deregister_loop_ext `{GoLib} (r r' : Registry) (si si' : ServiceInstance)
    (endpoints : list string) (h : history) :
  cli r = cli r' ->
  (forall u host p, deregister_param r si u host p = deregister_param r' si' u host p) ->
  Deregister_loop r si endpoints h = Deregister_loop r' si' endpoints h.
Proof.
  intros Hcli Hparam. revert h.
  induction endpoints as [|endpoint rest IH]; intros h; simpl; [reflexivity|].
  destruct (parse_endpoint endpoint) as [[[u host] p]|err]; [|reflexivity].
  rewrite <- Hcli, <- Hparam.
  destruct (DeregisterInstance (cli r) h (deregister_param r si u host p)) as [ok [e|]];
    [reflexivity | apply IH].
Qed.


(** X5: Register never reads the instance's ID, and Deregister reads neither
    the ID, the version nor the metadata: instances that differ only there
    give the same result and the same calls. *)
Theorem instance_fields_read (L : GoLib) (r : Registry) (id id' name : string)
    (version version' : string) (metadata metadata' : gmap string string)
    (endpoints : list string) (h : history) :
  @Register L r {| ID := id; Name := name; Version := version;
                   Metadata := metadata; Endpoints := endpoints |} h
    = @Register L r {| ID := id'; Name := name; Version := version;
                       Metadata := metadata; Endpoints := endpoints |} h /\
  @Deregister L r {| ID := id; Name := name; Version := version;
                     Metadata := metadata; Endpoints := endpoints |} h
    = @Deregister L r {| ID := id'; Name := name; Version := version';
                         Metadata := metadata'; Endpoints := endpoints |} h.
Proof.
  split.
  - unfold Register. cbn [Name Endpoints].
    destruct (String.eqb name EmptyString); [reflexivity|].
    now apply Register_loop_ext.
  - unfold Deregister. cbn [Endpoints]. now apply Deregister_loop_ext.
Qed.

(** *** Deregistration *)

Lemma Deregister_loop_app `{GoLib} (r : Registry) (service : ServiceInstance)
    (pre post : list string) (h : history) :
  Deregister_loop r service (pre ++ post) h =
  match Deregister_loop r service pre h with
  | (None, h1) => Deregister_loop r service post h1
  | failed => failed
  end.
Proof.
  revert h. induction pre as [|endpoint pre IH]; intros h; simpl; [reflexivity|].
  destruct (parse_endpoint endpoint) as [[[u host] p]|err]; [|reflexivity].
  destruct (DeregisterInstance (cli r) h (deregister_param r service u host p))
    as [ok [e|]]; [reflexivity | apply IH].
Qed.

Lemma Deregister_loop_done `{GoLib} (r : Registry) (service : ServiceInstance)
    (endpoints : list string) (h h1 : history) :
  Deregister_loop r service endpoints h = (None, h1) ->
  exists params,
    h1 = h ++ map CallDeregisterInstance params /\
    Forall2 (deregistration_of r service) endpoints params.
Proof.
  intros Hrun.
  destruct (Deregister_loop_calls r service endpoints h)
    as (params & Hh & Hall & _ & Hnone).
  rewrite Hrun in Hh, Hnone. simpl in Hh, Hnone.
  exists params. split; [exact Hh|].
  rewrite (Hnone eq_refl), firstn_all in Hall. exact Hall.
Qed.

(** X3: at an endpoint, the endpoints before it having been deregistered,
    Deregister returns the error of url.Parse, else of net.SplitHostPort,
    else of strconv.Atoi, with no call for the endpoint; and when the client
    refuses the deregistration it returns the client's error as it is (not
    wrapped with the endpoint, as Register does), the refused call being
    the last one: the endpoints after it stay registered. *)
Theorem Deregister_validation (L : GoLib) (r : Registry) (service : ServiceInstance)
    (h h1 : history) (pre post : list string) (endpoint : string) :
  Endpoints service = pre ++ endpoint :: post ->
  @Deregister_loop L r service pre h = (None, h1) ->
  (exists params, h1 = h ++ map CallDeregisterInstance params /\
                  Forall2 (@deregistration_of L r service) pre params) /\
  (forall err, url_Parse endpoint = inr err ->
     @Deregister L r service h = (Some err, h1)) /\
  (forall u err,
     url_Parse endpoint = inl u ->
     net_SplitHostPort (Host u) = inr err ->
     @Deregister L r service h = (Some err, h1)) /\
  (forall u host port err,
     url_Parse endpoint = inl u ->
     net_SplitHostPort (Host u) = inl (host, port) ->
     strconv_Atoi port = inr err ->
     @Deregister L r service h = (Some err, h1)) /\
  (forall u host port p ok msg,
     url_Parse endpoint = inl u ->
     net_SplitHostPort (Host u) = inl (host, port) ->
     strconv_Atoi port = inl p ->
     DeregisterInstance (cli r) h1 (deregister_param r service u host p)
       = (ok, Some msg) ->
     @Deregister L r service h =
       (Some (SdkError msg),
        h1 ++ [CallDeregisterInstance (deregister_param r service u host p)])).
Proof.
  intros Hends Hpre.
  split; [exact (Deregister_loop_done r service pre h h1 Hpre)|].
  unfold Deregister. rewrite Hends, Deregister_loop_app, Hpre.
  cbn [Deregister_loop]. unfold parse_endpoint.
  repeat split.
  - intros err ->. reflexivity.
  - intros u err -> ->. reflexivity.
  - intros u host port err -> -> ->. reflexivity.
  - intros u host port p ok msg -> -> -> Hfail. cbv beta iota zeta.
    now rewrite Hfail.
Qed.

Lemma Deregister_validation_witness :
  let r := {| opts := opts (New fake_client []);
              cli := failing_deregister_client 1 "not found" |} in
  let service := {| ID := "1"; Name := "svc"; Version := "v1"; Metadata := ∅;
                    Endpoints := ["grpc://h:1"; "http://h:2"; "ws://h:3"] |} in
  Deregister r service [] =
    (Some (SdkError "not found"),
     [CallDeregisterInstance
        (deregister_param r service {| Scheme := "grpc"; Host := "h:1" |} "h" 1);
      CallDeregisterInstance
        (deregister_param r service {| Scheme := "http"; Host := "h:2" |} "h" 2)]).
Proof.
  intros r service.
  refine (proj2 (proj2 (proj2 (proj2
            (Deregister_validation GoStd r service []
               [CallDeregisterInstance
                  (deregister_param r service {| Scheme := "grpc"; Host := "h:1" |} "h" 1)]
               ["grpc://h:1"] ["ws://h:3"] "http://h:2" eq_refl eq_refl))))
            {| Scheme := "http"; Host := "h:2" |} "h" "2" 2 false "not found"
            eq_refl eq_refl eq_refl eq_refl).
Defined.

(** *** Registering, then deregistering *)

Lemma store_of_app (h h' : history) :
  store_of (h ++ h') = fold_left store_step h' (store_of h).
Proof. unfold store_of. now rewrite fold_left_app. Qed.

Lemma store_deregistrations (ds : list DeregisterInstanceParam)
    (st : list RegisterInstanceParam) (a : RegisterInstanceParam) :
  In a (fold_left store_step (map CallDeregisterInstance ds) st) <->
  In a st /\ forall d, In d ds -> deregisters d a = false.
Proof.
  revert st. induction ds as [|d ds IH]; intros st; simpl.
  - intuition.
  - rewrite IH, filter_In, negb_true_iff. split.
    + intros [[Ha Hd] Hds]. split; [exact Ha|]. intros d' [<-|Hd']; auto.
    + intros [Ha Hds]. repeat split; auto.
Qed.

Lemma store_registrations_in (ps : list RegisterInstanceParam)
    (st : list RegisterInstanceParam) (a : RegisterInstanceParam) :
  In a (fold_left store_step (map CallRegisterInstance ps) st) ->
  In a ps \/ In a st.
Proof.
  revert st. induction ps as [|p ps IH]; intros st; simpl; [auto|].
  intros Ha. destruct (IH _ Ha) as [Hps|Hst]; [auto|].
  apply in_app_iff in Hst as [Hst|[<-|[]]]; [|auto].
  apply filter_In in Hst as [Hst _]. auto.
Qed.

Lemma store_registrations_keep (ps : list RegisterInstanceParam)
    (st : list RegisterInstanceParam) (a : RegisterInstanceParam) :
  In a st -> (forall p, In p ps -> same_instance p a = false) ->
  In a (fold_left store_step (map CallRegisterInstance ps) st).
Proof.
  revert st. induction ps as [|p ps IH]; intros st Ha Hps; simpl; [exact Ha|].
  apply IH; [|intros p' Hp'; apply Hps; now right].
  apply in_app_iff. left. apply filter_In. split; [exact Ha|].
  rewrite (Hps p); [reflexivity | now left].
Qed.

(** The deregistration of an endpoint names the record its registration
    made. *)
Lemma deregisters_registration `{GoLib} (r : Registry) (si : ServiceInstance)
    (endpoint : string) (p : RegisterInstanceParam) (d : DeregisterInstanceParam) :
  registration_of r si endpoint p ->
  deregistration_of r si endpoint d ->
  dereg_ServiceName d = reg_ServiceName p /\
  dereg_GroupName d = reg_GroupName p /\
  dereg_Cluster d = reg_ClusterName p /\
  dereg_Ip d = reg_Ip p /\
  dereg_Port d = reg_Port p.
Proof.
  intros (u & host & port & n & Hu & Hs & Ha & Hip & Hport & Hname & _ & _ & _ & _
          & _ & Hcl & Hg)
         (u' & host' & port' & n' & Hu' & Hs' & Ha' & Hip' & Hport' & Hname' & Hcl'
          & Hg' & _).
  rewrite Hu in Hu'. injection Hu' as <-.
  rewrite Hs in Hs'. injection Hs' as <- <-.
  rewrite Ha in Ha'. injection Ha' as <-.
  repeat split; congruence.
Qed.

Lemma same_key (x1 x2 x3 x4 y1 y2 y3 y4 : string) (x5 y5 : Z) :
  (String.eqb x1 y1 && String.eqb x2 y2 && String.eqb x3 y3 && String.eqb x4 y4
   && (x5 =? y5)) = true <->
  x1 = y1 /\ x2 = y2 /\ x3 = y3 /\ x4 = y4 /\ x5 = y5.
Proof.
  rewrite !andb_true_iff, !String.eqb_eq, Z.eqb_eq. tauto.
Qed.

(** X4: Register followed by Deregister of the same instance, against the
    fake client and after any earlier calls, removes the records of the
    instance's endpoints and nothing else: the records afterwards are the
    earlier records that no deregistration of the instance names. On a fresh
    client none is left, and GetService finds nothing. *)
Theorem Register_then_Deregister (L : GoLib) (o : options) (si : ServiceInstance)
    (h : history) :
  Name si <> EmptyString ->
  Forall (@well_formed L) (Endpoints si) ->
  let r := {| opts := o; cli := fake_client |} in
  let h1 := snd (@Register L r si h) in
  let h2 := snd (@Deregister L r si h1) in
  fst (@Register L r si h) = None /\
  fst (@Deregister L r si h1) = None /\
  (exists ds,
     Forall2 (@deregistration_of L r si) (Endpoints si) ds /\
     forall a, In a (store_of h2) <->
               In a (store_of h) /\ forall d, In d ds -> deregisters d a = false) /\
  (h = [] -> store_of h2 = [] /\
             forall serviceName, fst (GetService r serviceName h2) = ([], None)).
Proof.
  intros Hname Hwf r h1 h2. subst h2 h1.
  rewrite Register_nonempty by exact Hname. unfold Deregister.
  pose proof (Register_loop_accepted r si (Endpoints si) h Hwf ltac:(reflexivity)) as Hreg.
  destruct (Register_loop r si (Endpoints si) h) as [res h1] eqn:Hrun1.
  simpl in Hreg. subst res. cbn [fst snd].
  pose proof (Deregister_loop_accepted r si (Endpoints si) h1 Hwf ltac:(reflexivity))
    as Hdereg.
  destruct (Deregister_loop r si (Endpoints si) h1) as [res h2] eqn:Hrun2.
  simpl in Hdereg. subst res. cbn [fst snd].
  destruct (Register_loop_done r si _ _ _ Hrun1) as (ps & -> & Hps).
  destruct (Deregister_loop_done r si _ _ _ Hrun2) as (ds & -> & Hds).
  assert (Hstore : forall a, In a (store_of ((h ++ map CallRegisterInstance ps)
                                             ++ map CallDeregisterInstance ds)) <->
                   In a (store_of h) /\ forall d, In d ds -> deregisters d a = false).
  { intros a. rewrite store_of_app, store_deregistrations, store_of_app. split.
    - intros [Ha Hnone]. split; [|exact Hnone].
      destruct (store_registrations_in _ _ _ Ha) as [Hin|Hin]; [|exact Hin].
      exfalso.
      destruct (Forall2_In_r _ _ _ _ Hps Hin) as (e & He & Hreg).
      destruct (Forall2_In_l _ _ _ _ Hds He) as (d & Hd & Hdereg).
      destruct (deregisters_registration r si e a d Hreg Hdereg)
        as (H1 & H2 & H3 & H4 & H5).
      specialize (Hnone d Hd). unfold deregisters in Hnone.
      rewrite (proj2 (same_key _ _ _ _ _ _ _ _ _ _)) in Hnone by auto.
      discriminate.
    - intros [Ha Hnone]. split; [|exact Hnone].
      apply store_registrations_keep; [exact Ha|].
      intros p Hp. destruct (same_instance p a) eqn:Hsame; [|reflexivity].
      exfalso. unfold same_instance in Hsame.
      apply same_key in Hsame as (K1 & K2 & K3 & K4 & K5).
      destruct (Forall2_In_r _ _ _ _ Hps Hp) as (e & He & Hreg).
      destruct (Forall2_In_l _ _ _ _ Hds He) as (d & Hd & Hdereg).
      destruct (deregisters_registration r si e p d Hreg Hdereg)
        as (H1 & H2 & H3 & H4 & H5).
      specialize (Hnone d Hd). unfold deregisters in Hnone.
      rewrite (proj2 (same_key _ _ _ _ _ _ _ _ _ _)) in Hnone by (repeat split; congruence).
      discriminate. }
  repeat split; try reflexivity.
  - exists ds. split; [exact Hds | exact Hstore].
  - subst h.
    destruct (store_of (([] ++ map CallRegisterInstance ps)
                        ++ map CallDeregisterInstance ds)) as [|a st] eqn:Hst;
      [reflexivity|].
    destruct (proj1 (Hstore a) ltac:(now left)) as [[] _].
  - intros serviceName. subst h.
    assert (Hempty : store_of (([] ++ map CallRegisterInstance ps)
                               ++ map CallDeregisterInstance ds) = []).
    { destruct (store_of _) as [|a st] eqn:Hst; [reflexivity|].
      destruct (proj1 (Hstore a) ltac:(now left)) as [[] _]. }
    unfold GetService. cbn [cli r SelectInstances fake_client]. now rewrite Hempty.
Qed.

Lemma Register_then_Deregister_witness :
  store_of
    (snd (Deregister {| opts := opts (New fake_client []); cli := fake_client |}
            {| ID := "1"; Name := "svc"; Version := "v1"; Metadata := ∅;
               Endpoints := ["grpc://h:1"; "http://h:2"] |}
            (snd (Register {| opts := opts (New fake_client []); cli := fake_client |}
                    {| ID := "1"; Name := "svc"; Version := "v1"; Metadata := ∅;
                       Endpoints := ["grpc://h:1"; "http://h:2"] |} []))))
  = [].
Proof.
  refine (proj1 (proj2 (proj2 (proj2
            (Register_then_Deregister GoStd (opts (New fake_client []))
               {| ID := "1"; Name := "svc"; Version := "v1"; Metadata := ∅;
                  Endpoints := ["grpc://h:1"; "http://h:2"] |} [] _ _))) eq_refl)).
  - discriminate.
  - repeat constructor; eexists; vm_compute; reflexivity.
Defined.

(** *** The port Register accepts *)

(** How the three parsing steps read scheme://host:digits. *)
Lemma parse_endpoint_digits (c : ascii) (scheme' host digits : string) :
  Go.is_lower c = true ->
  Go.all_bytes scheme_byte scheme' = true ->
  Go.all_bytes host_byte host = true ->
  Go.all_bytes Go.is_digit digits = true ->
  @parse_endpoint GoStd (String c scheme' +:+ "://" +:+ host +:+ ":" +:+ digits) =
  if String.eqb digits EmptyString
  then inr (NumError "Atoi" EmptyString ErrSyntax)
  else if decimal digits <? 2 ^ 63
  then inl ({| Scheme := String c scheme'; Host := host +:+ ":" +:+ digits |},
            host, decimal digits)
  else inr (NumError "Atoi" digits ErrRange).
Proof.
  intros Hc Hs Hh Hd. unfold parse_endpoint. simpl url_Parse.
  rewrite GoFacts.Parse_canonical by assumption.
  simpl net_SplitHostPort. cbn [Host].
  change (host +:+ ":" +:+ digits) with (host +:+ String ":" digits).
  rewrite GoFacts.SplitHostPort_canonical by assumption.
  simpl strconv_Atoi. destruct digits as [|d digits]; [reflexivity|].
  rewrite GoFacts.Atoi_digits by exact Hd. cbn [String.eqb].
  destruct (decimal (String d digits) <? 2 ^ 63); reflexivity.
Qed.

(** X6: with Go's library, an endpoint scheme://host:digits (the scheme and
    the host in the bytes of [canonical_parts], the port any string of
    decimal digits) is refused with the syntax error of Atoi when the port
    is empty and with its range error when the number is 2^63 or more, and
    is accepted with the number as the port otherwise: leading zeros are
    read through and no bound such as 65535 is applied. *)
Theorem endpoint_port_text (c : ascii) (scheme' host digits : string) :
  Go.is_lower c = true ->
  Go.all_bytes scheme_byte scheme' = true ->
  Go.all_bytes host_byte host = true ->
  Go.all_bytes Go.is_digit digits = true ->
  @parse_endpoint GoStd (String c scheme' +:+ "://" +:+ host +:+ ":" +:+ digits) =
  if String.eqb digits EmptyString
  then inr (NumError "Atoi" EmptyString ErrSyntax)
  else if decimal digits <? 2 ^ 63
  then inl ({| Scheme := String c scheme'; Host := host +:+ ":" +:+ digits |},
            host, decimal digits)
  else inr (NumError "Atoi" digits ErrRange).
Proof. apply parse_endpoint_digits. Qed.

Lemma endpoint_port_text_witness :
  @parse_endpoint GoStd "grpc://h:070000" =
  inl ({| Scheme := "grpc"; Host := "h:070000" |}, "h", 70000).
Proof.
  exact (endpoint_port_text "g" "rpc" "h" "070000" eq_refl eq_refl eq_refl eq_refl).
Defined.

(** *** What discovery returns after a registration *)

Lemma filter_none {A : Type} (f : A -> bool) (l : list A) :
  (forall x, In x l -> f x = false) -> List.filter f l = [].
Proof.
  induction l as [|x l IH]; intros Hf; simpl; [reflexivity|].
  rewrite (Hf x) by now left. apply IH. intros y Hy. apply Hf. now right.
Qed.

(** The instance made of the record of a registration. *)
Lemma discovered_fields `{GoLib} (r r' : Registry) (si : ServiceInstance)
    (endpoint : string) (p : RegisterInstanceParam) :
  registration_of r si endpoint p ->
  exists u host port n,
    url_Parse endpoint = inl u /\
    net_SplitHostPort (Host u) = inl (host, port) /\
    strconv_Atoi port = inl n /\
    reg_ServiceName p = Name si +:+ "." +:+ Scheme u /\
    Name (service_instance_of r' (instance_of p)) = Name si +:+ "." +:+ Scheme u /\
    Version (service_instance_of r' (instance_of p))
      = match Metadata si !! "version" with Some v => v | None => Version si end /\
    Metadata (service_instance_of r' (instance_of p))
      = Metadata si ∪ tags (Scheme u) (Version si) /\
    Endpoints (service_instance_of r' (instance_of p))
      = [Sprintf_endpoint
           (match Metadata si !! "kind" with Some k => k | None => Scheme u end)
           host (uint64 n)].
Proof.
  intros (u & host & port & n & Hu & Hs & Ha & Hip & Hport & Hname & _ & _ & _ & _
          & Hmeta & _).
  exists u, host, port, n. repeat split; try assumption.
  - unfold service_instance_of, instance_of. simpl.
    rewrite Hmeta, lookup_union.
    destruct (Metadata si !! "version") as [v|].
    + now rewrite (union_Some_l v).
    + now rewrite (left_id_L None union).
  - unfold service_instance_of, instance_of. simpl.
    rewrite Hmeta, lookup_union, Hip, Hport.
    destruct (Metadata si !! "kind") as [k|].
    + now rewrite (union_Some_l k).
    + now rewrite (left_id_L None union).
Qed.

(** X7: after Register to a fresh fake client, whether it returned an error
    or not, every instance GetService returns comes from an endpoint of the
    registered instance that parsed: it was asked for under the name joined
    to the endpoint's scheme and carries that joined name, the version and
    the metadata as merged at registration (so a version or kind in the
    instance's metadata replaces the instance's version or the scheme), and
    the endpoint kind://host:port with the parsed host and port. The
    registry that asks has the group of the one that registered (under
    another group nothing is found); its default kind plays no part. *)
Theorem Register_then_GetService (L : GoLib) (o o' : options) (si : ServiceInstance)
    (serviceName : string) (item : ServiceInstance) :
  Name si <> EmptyString ->
  In item (fst (fst (GetService {| opts := o'; cli := fake_client |} serviceName
              (snd (@Register L {| opts := o; cli := fake_client |} si []))))) ->
  exists endpoint u host port n,
    In endpoint (Endpoints si) /\
    url_Parse endpoint = inl u /\
    net_SplitHostPort (Host u) = inl (host, port) /\
    strconv_Atoi port = inl n /\
    serviceName = Name si +:+ "." +:+ Scheme u /\
    group o' = group o /\
    Name item = serviceName /\
    Version item
      = match Metadata si !! "version" with Some v => v | None => Version si end /\
    Metadata item = Metadata si ∪ tags (Scheme u) (Version si) /\
    Endpoints item
      = [Sprintf_endpoint
           (match Metadata si !! "kind" with Some k => k | None => Scheme u end)
           host (uint64 n)].
Proof.
  intros Hname. rewrite Register_nonempty by exact Hname.
  set (r := {| opts := o; cli := fake_client |}).
  destruct (Register_loop_calls r si (Endpoints si) []) as (ps & Hh & Hall & _).
  rewrite Hh, app_nil_l, GetService_fake.
  intros Hitem. apply in_map_iff in Hitem as (p & <- & Hp).
  apply filter_In in Hp as [Hp Hsel].
  apply (store_of_registrations r si _ _ Hall) in Hp.
  destruct (Forall2_In_r _ _ _ _ Hall Hp) as (endpoint & He & Hreg).
  destruct (discovered_fields r {| opts := o'; cli := fake_client |} si endpoint p Hreg)
    as (u & host & port & n & Hu & Hs & Ha & Hsn & Hn & Hv & Hm & Hend).
  unfold selects in Hsel. cbn in Hsel.
  apply andb_prop in Hsel as [Hsel _]. apply andb_prop in Hsel as [Hsel Hgrp].
  apply String.eqb_eq in Hsel, Hgrp.
  destruct Hreg as (_ & _ & _ & _ & _ & _ & _ & _ & _ & _ & _ & _ & _ & _ & _ & _ & Hg).
  assert (Hin : In endpoint (Endpoints si)).
  { apply list_elem_of_In. apply list_elem_of_In in He. eapply subseteq_take, He. }
  assert (Hasked : serviceName = Name si +:+ "." +:+ Scheme u) by now rewrite <- Hsel.
  assert (Hgroup : group o' = group o) by now rewrite <- Hgrp, Hg.
  exists endpoint, u, host, port, n.
  rewrite Hn, Hv, Hm, Hend, Hasked. repeat split; assumption.
Qed.

Lemma Register_then_GetService_witness :
  exists endpoint,
    In endpoint ["grpc://h:1"; "grpc://hostonly"] /\
    exists u, Go.Parse endpoint = inl u /\ "svc.grpc" = "svc" +:+ "." +:+ Scheme u.
Proof.
  destruct (Register_then_GetService GoStd (opts (New fake_client []))
              (opts (New fake_client []))
              {| ID := "1"; Name := "svc"; Version := "v1"; Metadata := ∅;
                 Endpoints := ["grpc://h:1"; "grpc://hostonly"] |}
              "svc.grpc"
              (service_instance_of (New fake_client [])
                 (instance_of
                    (register_param (New fake_client [])
                       {| ID := "1"; Name := "svc"; Version := "v1"; Metadata := ∅;
                          Endpoints := ["grpc://h:1"; "grpc://hostonly"] |}
                       {| Scheme := "grpc"; Host := "h:1" |} "h" 1)))
              ltac:(discriminate) ltac:(now left))
    as (endpoint & u & host & port & n & He & Hu & _ & _ & Hsn & _).
  exists endpoint. split; [exact He|]. exists u. split; [exact Hu | exact Hsn].
Defined.

(** X10: when Register stops at an endpoint that does not parse, against
    the fake client, the endpoints before it stay registered: Register
    returns the parsing error, and GetService still finds an instance for
    each of the earlier endpoints, under the name joined to its scheme. *)
Theorem Register_partial (L : GoLib) (o : options) (si : ServiceInstance)
    (pre post : list string) (bad : string) (err : error) :
  Name si <> EmptyString ->
  Endpoints si = pre ++ bad :: post ->
  Forall (@well_formed L) pre ->
  @parse_endpoint L bad = inr err ->
  let r := {| opts := o; cli := fake_client |} in
  fst (@Register L r si []) = Some err /\
  forall endpoint, In endpoint pre ->
    exists u host port n item,
      url_Parse endpoint = inl u /\
      net_SplitHostPort (Host u) = inl (host, port) /\
      strconv_Atoi port = inl n /\
      In item (fst (fst (GetService r (Name si +:+ "." +:+ Scheme u)
                                    (snd (@Register L r si []))))) /\
      Endpoints item
        = [Sprintf_endpoint
             (match Metadata si !! "kind" with Some k => k | None => Scheme u end)
             host (uint64 n)].
Proof.
  intros Hname Hends Hwf Hbad r.
  rewrite Register_nonempty by exact Hname.
  rewrite Hends, Register_loop_app.
  pose proof (Register_loop_accepted r si pre [] Hwf ltac:(reflexivity)) as Hok.
  destruct (Register_loop r si pre []) as [res h1] eqn:Hrun.
  simpl in Hok. subst res. cbn [Register_loop]. rewrite Hbad. cbn [fst snd].
  split; [reflexivity|].
  destruct (Register_loop_done r si _ _ _ Hrun) as (ps & -> & Hall).
  intros endpoint He.
  destruct (Forall2_In_l _ _ _ _ Hall He) as (p & Hp & Hreg).
  destruct (discovered_fields r r si endpoint p Hreg)
    as (u & host & port & n & Hu & Hs & Ha & Hsn & _ & _ & _ & Hend).
  exists u, host, port, n, (service_instance_of r (instance_of p)).
  repeat split; try assumption.
  subst r. rewrite GetService_fake.
  apply in_map_iff. exists p. split; [reflexivity|].
  apply filter_In. split.
  - rewrite app_nil_l. now apply (store_of_registrations _ si _ _ Hall).
  - destruct Hreg as (_ & _ & _ & _ & _ & _ & _ & _ & _ & _ & _ & Hen & Hhe & _ & _ & _ & Hg).
    unfold selects. cbn [sel_ServiceName sel_GroupName sel_HealthyOnly].
    rewrite Hsn, Hg, Hen, Hhe, !String.eqb_refl. reflexivity.
Qed.

Lemma Register_partial_witness :
  fst (Register {| opts := opts (New fake_client []); cli := fake_client |}
         {| ID := "1"; Name := "svc"; Version := "v1"; Metadata := ∅;
            Endpoints := ["grpc://h:1"; "grpc://hostonly"; "http://h:2"] |} [])
  = Some (AddrError "missing port in address" "hostonly").
Proof.
  refine (proj1 (Register_partial GoStd (opts (New fake_client []))
            {| ID := "1"; Name := "svc"; Version := "v1"; Metadata := ∅;
               Endpoints := ["grpc://h:1"; "grpc://hostonly"; "http://h:2"] |}
            ["grpc://h:1"] ["http://h:2"] "grpc://hostonly"
            (AddrError "missing port in address" "hostonly") _ eq_refl _ eq_refl)).
  - discriminate.
  - repeat constructor. eexists. vm_compute. reflexivity.
Defined.

(** *** Registering what discovery returned *)

(** X8: with Go's library, registering the instance GetService made of a
    record (its kind, IP and port in the form of [canonical_parts], its
    service name not empty) issues one registration: the record's IP and
    port again, under the record's service name with the kind appended once
    more, the record's metadata laid over the tags of that kind and of the
    version the metadata holds. *)
Theorem Register_discovered (r : Registry) (rec : Instance) (h : history) :
  let k := match inst_Metadata rec !! "kind" with
           | Some k => k
           | None => kind (opts r)
           end in
  canonical_parts k (Ip rec) (Port rec) ->
  ServiceName rec <> EmptyString ->
  exists p,
    snd (@Register GoStd r (service_instance_of r rec) h)
      = h ++ [CallRegisterInstance p] /\
    reg_Ip p = Ip rec /\
    reg_Port p = Port rec /\
    reg_ServiceName p = ServiceName rec +:+ "." +:+ k /\
    reg_Metadata p
      = inst_Metadata rec
        ∪ tags k (default EmptyString (inst_Metadata rec !! "version")).
Proof.
  intros k Hparts Hname.
  pose proof (GoStd_canonical k (Ip rec) (Port rec) Hparts) as Hparse.
  set (u := {| Scheme := k; Host := Ip rec +:+ ":" +:+ FormatUint (Port rec) |}) in *.
  exists (register_param r (service_instance_of r rec) u (Ip rec) (Port rec)).
  split.
  - rewrite Register_nonempty by exact Hname.
    change (Endpoints (service_instance_of r rec))
      with [Sprintf_endpoint k (Ip rec) (Port rec)].
    cbn [Register_loop]. rewrite Hparse. cbv beta iota zeta.
    destruct (RegisterInstance _ h _) as [ok [e|]]; reflexivity.
  - destruct Hparts as (_ & _ & Hport).
    repeat split.
    + cbn [reg_Port register_param]. unfold uint64. apply Z.mod_small. lia.
    + cbn [reg_Metadata register_param]. now rewrite build_meta_tags.
Qed.

Lemma Register_discovered_witness :
  let rec := instance_of
               {| reg_Ip := "10.0.0.1"; reg_Port := 9000;
                  reg_ServiceName := "pay.grpc"; reg_Weight := 100%float;
                  reg_Enable := true; reg_Healthy := true; reg_Ephemeral := true;
                  reg_Metadata := ∅; reg_ClusterName := "DEFAULT";
                  reg_GroupName := DEFAULT_GROUP |} in
  exists p,
    snd (Register (New fake_client [])
           (service_instance_of (New fake_client []) rec) [])
      = [CallRegisterInstance p] /\
    reg_ServiceName p = "pay.grpc.grpc".
Proof.
  intros rec.
  destruct (Register_discovered (New fake_client []) rec [])
    as (p & Hh & _ & _ & Hname & _).
  - split; [exists "g"%char, "rpc"; repeat split | split; [reflexivity | cbn; lia]].
  - discriminate.
  - exists p. split; [exact Hh | exact Hname].
Defined.

(** X9: with Go's library, the endpoint GetService writes for a kind, an IP
    and a port (the kind and the IP in the bytes of [canonical_parts], the
    port any uint64) parses back into these three when the port is below
    2^63; for a port of 2^63 or more it is refused with the range error of
    Atoi, although the port is a valid uint64. *)
Theorem Sprintf_endpoint_parse (c : ascii) (scheme' host : string) (port : Z) :
  Go.is_lower c = true ->
  Go.all_bytes scheme_byte scheme' = true ->
  Go.all_bytes host_byte host = true ->
  0 <= port < 2 ^ 64 ->
  @parse_endpoint GoStd (Sprintf_endpoint (String c scheme') host port) =
  if port <? 2 ^ 63
  then inl ({| Scheme := String c scheme';
               Host := host +:+ ":" +:+ FormatUint port |}, host, port)
  else inr (NumError "Atoi" (FormatUint port) ErrRange).
Proof.
  intros Hc Hs Hh Hport. unfold Sprintf_endpoint.
  pose proof (GoFacts.formatBits_digits 20 port EmptyString ltac:(lia) eq_refl) as Hd.
  pose proof (GoFacts.formatBits_decimal 20 port EmptyString ltac:(simpl; lia)) as Hv.
  destruct (GoFacts.formatBits_cons 20 port EmptyString) as (d & ds & Hcons);
    [left; discriminate|].
  fold (FormatUint port) in Hd, Hv, Hcons. simpl in Hv.
  rewrite parse_endpoint_digits by assumption.
  rewrite Hv. rewrite Hcons at 1. reflexivity.
Qed.

Lemma Sprintf_endpoint_parse_witness :
  @parse_endpoint GoStd (Sprintf_endpoint "grpc" "h" (2 ^ 63)) =
  inr (NumError "Atoi" "9223372036854775808" ErrRange).
Proof.
  exact (Sprintf_endpoint_parse "g" "rpc" "h" (2 ^ 63) eq_refl eq_refl eq_refl
           ltac:(lia)).
Defined.
